(** * Wi-Fi provisioning firmware (main/app_main.c): model and properties

    The firmware is a sequence of calls into ESP-IDF and FreeRTOS.  Each
    function of app_main.c is written below as a program of a small monad
    whose only effects are the ones the C code has:

    - a call into a library (recorded, with its arguments, in a trace; the
      library's answer comes from an environment);
    - [abort()], reached through [ESP_ERROR_CHECK];
    - a read or write of the file's static variables ([service_name],
      [button_queue]);
    - suspension of the calling task on an empty queue.

    Two schedulers are given.  In [device], scheduling is taken at the
    granularity of one handler invocation: the boot part of [app_main], one
    run of [button_isr_handler], one iteration of the loop of
    [button_task], one call of [event_handler], one iteration of the idle
    loop of [app_main]; a task is not preempted inside such an invocation.
    In [schedule], the end of the boot (lines 157-165) and the button task,
    which exists from line 152 on, are interleaved call by call.

    [ESP_ERROR_CHECK] is taken with assertions enabled, as ESP-IDF builds by
    default: it calls [abort()], which ends the run of the firmware. *)

From Stdlib Require Import ZArith NArith List String Ascii Bool Lia Arith.
From Stdlib Require Import Strings.Byte.
Import ListNotations.

Local Open Scope Z_scope.

(** ** Values of the ESP-IDF headers

    app_main.c includes the headers but they are not part of the
    repository; the values are those of ESP-IDF (esp_err.h, nvs.h,
    wifi_provisioning/manager.h, esp_wifi_types.h, esp_netif_types.h,
    hal/gpio_types.h).  Only their being distinct is ever used. *)

Definition esp_err_t := Z.

Definition ESP_OK : esp_err_t := 0.
Definition ESP_FAIL : esp_err_t := -1.
Definition ESP_ERR_NO_MEM : esp_err_t := 257.
Definition ESP_ERR_NOT_FOUND : esp_err_t := 261.
Definition ESP_ERR_NVS_BASE : esp_err_t := 4352.
Definition ESP_ERR_NVS_NO_FREE_PAGES : esp_err_t := ESP_ERR_NVS_BASE + 13.
Definition ESP_ERR_NVS_NEW_VERSION_FOUND : esp_err_t := ESP_ERR_NVS_BASE + 16.

Definition ESP_EVENT_ANY_ID : Z := -1.
Definition WIFI_PROV_INIT : Z := 0.
Definition WIFI_PROV_START : Z := 1.
Definition WIFI_PROV_CRED_RECV : Z := 2.
Definition WIFI_PROV_CRED_FAIL : Z := 3.
Definition WIFI_PROV_CRED_SUCCESS : Z := 4.
Definition WIFI_PROV_END : Z := 5.
Definition WIFI_EVENT_STA_START : Z := 2.
Definition IP_EVENT_STA_GOT_IP : Z := 0.

Definition WIFI_PROV_SECURITY_1 : Z := 1.
Definition GPIO_NUM_32 : Z := 32.

(** [esp_event_base_t]: the three bases the handler compares against, and
    any other one. *)
Inductive esp_event_base_t :=
| WIFI_PROV_EVENT
| WIFI_EVENT
| IP_EVENT
| OTHER_EVENT (name : string).

(** ** Constants of app_main.c (lines 16-28) *)

Definition PROV_QR_VERSION : string := "v1".
Definition PROV_TRANSPORT_BLE : string := "ble".
Definition BUTTON_GPIO : Z := GPIO_NUM_32.
Definition DEBOUNCE_MS : Z := 50.
Definition pop : string := "abcd1234".

(** [sizeof(service_name)], [sizeof(payload)], and the length given to
    [xQueueCreate]. *)
Definition SERVICE_NAME_SIZE : nat := 12.
Definition PAYLOAD_SIZE : nat := 150.
Definition BUTTON_QUEUE_LENGTH : nat := 5.

(** ** Library calls

    One constructor per library function app_main.c calls, with the
    arguments that vary.  A duration is kept as the milliseconds handed to
    [pdMS_TO_TICKS]; the tick rate is a build setting. *)

Inductive ticks := pdMS_TO_TICKS (ms : Z).

Inductive log_arg :=
| ArgStr (s : string)
| ArgInt (v : Z).

Inductive Call :=
| nvs_flash_init
| nvs_flash_erase
| esp_netif_init
| esp_event_loop_create_default
| xEventGroupCreate
| esp_event_handler_register (base : esp_event_base_t) (id : Z)
| esp_netif_create_default_wifi_sta
| esp_wifi_init
| esp_wifi_get_mac
| gpio_config (pin : Z)
| xQueueCreate (len : nat)
| xTaskCreate (name : string) (stack prio : Z)
| gpio_install_isr_service
| gpio_isr_handler_add (pin : Z)
| wifi_prov_mgr_is_provisioned
| wifi_prov_mgr_init
| wifi_prov_mgr_start_provisioning (security : Z) (pop service_name : string)
| wifi_prov_mgr_stop_provisioning
| wifi_prov_mgr_reset_provisioning
| wifi_prov_mgr_deinit
| esp_qrcode_generate (payload : string)
| esp_wifi_connect
| esp_wifi_disconnect
| esp_wifi_set_mode
| esp_wifi_start
| vTaskDelay (t : ticks)
| gpio_get_level (pin : Z)
| ESP_LOGI (fmt : string) (args : list log_arg).

Definition esp_event_base_eq_dec (a b : esp_event_base_t) : {a = b} + {a <> b}.
Proof. decide equality; apply string_dec. Defined.

Definition log_arg_eq_dec (a b : log_arg) : {a = b} + {a <> b}.
Proof. decide equality; [apply string_dec | apply Z.eq_dec]. Defined.

Definition Call_eq_dec (a b : Call) : {a = b} + {a <> b}.
Proof.
  decide equality;
    try apply string_dec; try apply Z.eq_dec; try apply Nat.eq_dec;
    try apply esp_event_base_eq_dec.
  - decide equality; apply Z.eq_dec.
  - apply list_eq_dec, log_arg_eq_dec.
Defined.

(** What a call hands back: its return value and what the object behind
    its pointer argument holds when it returns ([provisioned] at line 158,
    [mac] at line 62). *)
Inductive OutParam :=
| NoOut
| OutBool (b : bool)
| OutMac (mac : list byte).

Record Reply := mkReply { ret : Z; out : OutParam }.

Definition Event : Type := Call * Reply.

(** The environment answers the [n]-th call of a run (counted from the
    reset of the device). *)
Definition Env := nat -> Call -> Reply.

(** ** Static variables of app_main.c

    [button_queue] is [None] while the handle is NULL; otherwise it is the
    FreeRTOS queue with its length and the identifiers waiting in it. *)

Record Queue := mkQueue { q_length : nat; q_items : list Z }.

Record Globals := mkGlobals {
  service_name : string;
  button_queue : option Queue
}.

Definition globals_init : Globals :=
  {| service_name := EmptyString; button_queue := None |}.

(** ** Programs *)

Inductive Prog (A : Type) : Type :=
| Ret (a : A)
| Abort
| Block
| Do (c : Call) (k : Reply -> Prog A).

Arguments Ret {A} a.
Arguments Abort {A}.
Arguments Block {A}.
Arguments Do {A} c k.

Fixpoint pbind {A B} (p : Prog A) (f : A -> Prog B) : Prog B :=
  match p with
  | Ret a => f a
  | Abort => Abort
  | Block => Block
  | Do c k => Do c (fun r => pbind (k r) f)
  end.

(** A function of app_main.c: a program over the static variables. *)
Definition M (A : Type) : Type := Globals -> Prog (A * Globals).

Definition mret {A} (a : A) : M A := fun g => Ret (a, g).

Definition mbind {A B} (m : M A) (f : A -> M B) : M B :=
  fun g => pbind (m g) (fun '(a, g') => f a g').

Definition call (c : Call) : M Reply := fun g => Do c (fun r => Ret (r, g)).
Definition abort {A} : M A := fun _ => Abort.
Definition gets {A} (f : Globals -> A) : M A := fun g => Ret (f g, g).
Definition modify (f : Globals -> Globals) : M unit := fun g => Ret (tt, f g).

Declare Scope prog_scope.
Delimit Scope prog_scope with prog.
Notation "x <- m ;; k" := (mbind m (fun x => k))
  (at level 61, m at next level, right associativity) : prog_scope.
Notation "' pat <- m ;; k" := (mbind m (fun x => match x with pat => k end))
  (at level 61, pat pattern, m at next level, right associativity) : prog_scope.
Notation "m ;; k" := (mbind m (fun _ => k))
  (at level 61, right associativity) : prog_scope.
Local Open Scope prog_scope.

(** [ESP_ERROR_CHECK(x)]: [abort()] unless [x] is [ESP_OK]. *)
Definition ESP_ERROR_CHECK (m : M Reply) : M unit :=
  r <- m ;;
  if ret r =? ESP_OK then mret tt else abort.

(** ** Running a program *)

Inductive Outcome (A : Type) : Type :=
| Done (a : A)
| Aborted
| Blocked.

Arguments Done {A} a.
Arguments Aborted {A}.
Arguments Blocked {A}.

(** [run env n p]: the outcome of [p] and the events it produces, where [n]
    calls were made before [p] started. *)
Fixpoint run {A} (env : Env) (n : nat) (p : Prog A) : Outcome A * list Event :=
  match p with
  | Ret a => (Done a, [])
  | Abort => (Aborted, [])
  | Block => (Blocked, [])
  | Do c k =>
      let r := env n c in
      let '(o, tr) := run env (S n) (k r) in
      (o, (c, r) :: tr)
  end.

(** ** FreeRTOS queue

    Modelled from the spec: the queue functions of FreeRTOS are not part of
    the repository.  The mailbox is bounded; [xQueueSendFromISR] never waits
    and drops the item when the queue is full; [xQueueReceive] with
    [portMAX_DELAY] suspends the caller while the queue is empty and hands
    out the oldest item otherwise.  Using a NULL handle fails FreeRTOS's
    assertion on the handle. *)

Definition pdTRUE : Z := 1.
Definition errQUEUE_FULL : Z := 0.

Definition queue_full (q : Queue) : bool :=
  (q_length q <=? List.length (q_items q))%nat.

Definition xQueueSendFromISR (item : Z) : M Z := fun g =>
  match button_queue g with
  | None => Abort
  | Some q =>
      if queue_full q then Ret (errQUEUE_FULL, g)
      else Ret (pdTRUE,
                {| service_name := service_name g;
                   button_queue :=
                     Some {| q_length := q_length q;
                             q_items := (q_items q ++ [item])%list |} |})
  end.

Definition xQueueReceive_portMAX_DELAY : M (Z * Z) := fun g =>
  match button_queue g with
  | None => Abort
  | Some q =>
      match q_items q with
      | [] => Block
      | item :: rest =>
          Ret ((pdTRUE, item),
               {| service_name := service_name g;
                  button_queue :=
                    Some {| q_length := q_length q; q_items := rest |} |})
      end
  end.

(** ** Formatting *)

Local Open Scope string_scope.

(** [snprintf(buf, max, ...)] with [max >= 1] stores at most [max - 1]
    characters of the formatted text (and the terminator); both calls of
    app_main.c pass the size of the buffer, 12 and 150.  With [max = 0] C's
    [snprintf] stores nothing and the buffer keeps what it held: that case
    is not what this function describes, and nothing below relies on it. *)
Definition snprintf (max : nat) (formatted : string) : string :=
  substring 0 (max - 1) formatted.

Definition hex_digit (n : N) : ascii :=
  match n with
  | 0%N => "0" | 1%N => "1" | 2%N => "2" | 3%N => "3"
  | 4%N => "4" | 5%N => "5" | 6%N => "6" | 7%N => "7"
  | 8%N => "8" | 9%N => "9" | 10%N => "A" | 11%N => "B"
  | 12%N => "C" | 13%N => "D" | 14%N => "E" | _ => "F"
  end%char.

(** [%02X] of a [uint8_t]. *)
Definition fmt_02X (b : byte) : string :=
  String (hex_digit (Byte.to_N b / 16))
    (String (hex_digit (Byte.to_N b mod 16)) EmptyString).

(** [mac[i]]. *)
Definition mac_at (mac : list byte) (i : nat) : byte := nth i mac x00.

(** What the array [mac] holds when [esp_wifi_get_mac] has returned.  The
    array is automatic and not initialised (line 61): when the call stores
    nothing it still holds six bytes, indeterminate ones, and which they
    are is for the environment to say, as for everything a call leaves
    behind.  So a reply to [esp_wifi_get_mac] carries the six bytes of the
    array whether the call succeeded or not.  A reply that carries none
    describes no run of the firmware ([mac_at] reads zeros from it); what
    is stated below about the address that was read is stated for replies
    with six bytes. *)
Definition reply_mac (r : Reply) : list byte :=
  match out r with
  | OutMac mac => mac
  | _ => []
  end.

(** The text of ["PROV_%02X%02X%02X"] at [mac[3], mac[4], mac[5]]. *)
Definition service_name_text (mac : list byte) : string :=
  "PROV_" ++ fmt_02X (mac_at mac 3) ++ fmt_02X (mac_at mac 4)
          ++ fmt_02X (mac_at mac 5).

(** The double quote, and the text of the payload format (line 77). *)
Definition dquote : string := String "034"%char EmptyString.

Definition payload_text (ver name pop_ transport : string) : string :=
  "{" ++ dquote ++ "ver" ++ dquote ++ ":" ++ dquote ++ ver ++ dquote ++ ","
      ++ dquote ++ "name" ++ dquote ++ ":" ++ dquote ++ name ++ dquote ++ ","
      ++ dquote ++ "pop" ++ dquote ++ ":" ++ dquote ++ pop_ ++ dquote ++ ","
      ++ dquote ++ "transport" ++ dquote ++ ":" ++ dquote ++ transport
      ++ dquote ++ "}".

(** ** app_main.c *)

Inductive event_data_t :=
| NoData
| StaConfig (ssid password : string)
| GotIp (ip : Z).

Definition data_ssid (d : event_data_t) : string :=
  match d with StaConfig s _ => s | _ => EmptyString end.
Definition data_password (d : event_data_t) : string :=
  match d with StaConfig _ p => p | _ => EmptyString end.
Definition data_ip (d : event_data_t) : Z :=
  match d with GotIp ip => ip | _ => 0%Z end.

(** [IP2STR]: the four bytes of the address, in memory order. *)
Definition IP2STR (ip : Z) : list log_arg :=
  [ArgInt (Z.land ip 255); ArgInt (Z.land (Z.shiftr ip 8) 255);
   ArgInt (Z.land (Z.shiftr ip 16) 255); ArgInt (Z.land (Z.shiftr ip 24) 255)].

Definition event_base_is (a b : esp_event_base_t) : bool :=
  match a, b with
  | WIFI_PROV_EVENT, WIFI_PROV_EVENT => true
  | WIFI_EVENT, WIFI_EVENT => true
  | IP_EVENT, IP_EVENT => true
  | OTHER_EVENT x, OTHER_EVENT y => String.eqb x y
  | _, _ => false
  end.

(** Lines 31-57. *)
Definition event_handler (event_base : esp_event_base_t) (event_id : Z)
    (event_data : event_data_t) : M unit :=
  if event_base_is event_base WIFI_PROV_EVENT then
    if (event_id =? WIFI_PROV_START)%Z then
      call (ESP_LOGI "Provisioning started" []) ;; mret tt
    else if (event_id =? WIFI_PROV_CRED_RECV)%Z then
      call (ESP_LOGI "Received SSID: %s, Password: %s"
              [ArgStr (data_ssid event_data);
               ArgStr (data_password event_data)]) ;; mret tt
    else if (event_id =? WIFI_PROV_CRED_SUCCESS)%Z then
      call (ESP_LOGI "Provisioning successful" []) ;; mret tt
    else if (event_id =? WIFI_PROV_END)%Z then
      call (ESP_LOGI "Provisioning stopped" []) ;; mret tt
    else mret tt
  else if event_base_is event_base WIFI_EVENT
          && (event_id =? WIFI_EVENT_STA_START)%Z then
    call esp_wifi_connect ;; mret tt
  else if event_base_is event_base IP_EVENT
          && (event_id =? IP_EVENT_STA_GOT_IP)%Z then
    call (ESP_LOGI "Connected with IP: %d.%d.%d.%d"
            (IP2STR (data_ip event_data))) ;; mret tt
  else mret tt.

(** Lines 60-64; the result is what is stored in [name], for a buffer of
    [max >= 1] bytes. *)
Definition get_device_service_name (max : nat) : M string :=
  r <- call esp_wifi_get_mac ;;
  mret (snprintf max (service_name_text (reply_mac r))).

(** Lines 76-78: what [snprintf] leaves in [payload]. *)
Definition qr_payload (name : string) : string :=
  snprintf PAYLOAD_SIZE
    (payload_text PROV_QR_VERSION name pop PROV_TRANSPORT_BLE).

(** Lines 67-83. *)
Definition start_provisioning : M unit :=
  ESP_ERROR_CHECK (call wifi_prov_mgr_init) ;;
  name <- gets service_name ;;
  ESP_ERROR_CHECK
    (call (wifi_prov_mgr_start_provisioning WIFI_PROV_SECURITY_1 pop name)) ;;
  let payload := qr_payload name in
  call (ESP_LOGI "Scan this QR code for provisioning:" []) ;;
  call (esp_qrcode_generate payload) ;;
  mret tt.

(** Lines 86-90. *)
Definition stop_provisioning : M unit :=
  call wifi_prov_mgr_stop_provisioning ;;
  call wifi_prov_mgr_reset_provisioning ;;
  call wifi_prov_mgr_deinit ;;
  mret tt.

(** Lines 93-96. *)
Definition button_isr_handler (arg : Z) : M unit :=
  let gpio_num := arg in
  xQueueSendFromISR gpio_num ;;
  mret tt.

(** Lines 102-110: the body of the loop of [button_task]. *)
Definition button_task_body : M unit :=
  '(received, io_num) <- xQueueReceive_portMAX_DELAY ;;
  if (received =? 0)%Z then mret tt
  else
    call (vTaskDelay (pdMS_TO_TICKS DEBOUNCE_MS)) ;;
    level <- call (gpio_get_level io_num) ;;
    if (ret level =? 0)%Z then mret tt
    else
      call (ESP_LOGI "Triggering reprovisioning" []) ;;
      call esp_wifi_disconnect ;;
      stop_provisioning ;;
      start_provisioning.

(** Lines 99-112: [button_task] for a given number of turns of its loop. *)
Fixpoint button_task (turns : nat) : M unit :=
  match turns with
  | O => mret tt
  | S turns' => button_task_body ;; button_task turns'
  end.

Definition reply_bool (initial : bool) (r : Reply) : bool :=
  match out r with
  | OutBool b => b
  | _ => initial
  end.

Definition set_service_name (name : string) (g : Globals) : Globals :=
  {| service_name := name; button_queue := button_queue g |}.

Definition set_button_queue (q : option Queue) (g : Globals) : Globals :=
  {| service_name := service_name g; button_queue := q |}.

(** [app_main] up to its idle loop, in the three blocks its comments mark. *)

(** Lines 116-121: initialise the persistent store. *)
Definition app_main_nvs : M unit :=
  r <- call nvs_flash_init ;;
  if (ret r =? ESP_ERR_NVS_NO_FREE_PAGES)%Z
     || (ret r =? ESP_ERR_NVS_NEW_VERSION_FOUND)%Z
  then
    ESP_ERROR_CHECK (call nvs_flash_erase) ;;
    ESP_ERROR_CHECK (call nvs_flash_init)
  else mret tt.

(** Lines 123-154: network interface, event handlers, Wi-Fi, service name,
    button.  [xQueueCreate] returns the handle, NULL (0) when the queue
    could not be allocated. *)
Definition app_main_init : M unit :=
  call esp_netif_init ;;
  call esp_event_loop_create_default ;;
  call xEventGroupCreate ;;
  call (esp_event_handler_register WIFI_PROV_EVENT ESP_EVENT_ANY_ID) ;;
  call (esp_event_handler_register WIFI_EVENT ESP_EVENT_ANY_ID) ;;
  call (esp_event_handler_register IP_EVENT IP_EVENT_STA_GOT_IP) ;;
  call esp_netif_create_default_wifi_sta ;;
  ESP_ERROR_CHECK (call esp_wifi_init) ;;
  name <- get_device_service_name SERVICE_NAME_SIZE ;;
  modify (set_service_name name) ;;
  call (gpio_config BUTTON_GPIO) ;;
  h <- call (xQueueCreate BUTTON_QUEUE_LENGTH) ;;
  modify (set_button_queue
            (if (ret h =? 0)%Z then None
             else Some {| q_length := BUTTON_QUEUE_LENGTH; q_items := [] |})) ;;
  call (xTaskCreate "button_task" 4096 10) ;;
  call gpio_install_isr_service ;;
  call (gpio_isr_handler_add BUTTON_GPIO) ;;
  mret tt.

(** Lines 156-165: start provisioning unless credentials are stored. *)
Definition app_main_check : M unit :=
  p <- call wifi_prov_mgr_is_provisioned ;;
  let provisioned := reply_bool false p in
  if negb (ret p =? ESP_OK)%Z || negb provisioned then
    call (ESP_LOGI "Starting initial provisioning" []) ;;
    start_provisioning
  else
    call (ESP_LOGI "Already provisioned, connecting..." []) ;;
    call esp_wifi_set_mode ;;
    call esp_wifi_start ;;
    mret tt.

(** Lines 116-165. *)
Definition app_main_setup : M unit :=
  app_main_nvs ;; app_main_init ;; app_main_check.

(** Lines 168-170: the body of the idle loop. *)
Definition app_main_idle : M unit :=
  call (vTaskDelay (pdMS_TO_TICKS 1000)) ;; mret tt.

(** Lines 115-171: [app_main] for a given number of turns of its loop. *)
Fixpoint app_main_loop (turns : nat) : M unit :=
  match turns with
  | O => mret tt
  | S turns' => app_main_idle ;; app_main_loop turns'
  end.

Definition app_main (turns : nat) : M unit :=
  app_main_setup ;; app_main_loop turns.

(** ** The device

    After the boot part of [app_main], the device reacts to what happens to
    it: an edge on the button pin runs the interrupt handler, the button
    task takes a turn of its loop, the event loop hands an event to
    [event_handler], [app_main] takes a turn of its idle loop.  [abort()]
    stops the firmware. *)

Inductive Input :=
| ButtonEdge
| ButtonTaskTurn
| Dispatch (event_base : esp_event_base_t) (event_id : Z)
           (event_data : event_data_t)
| MainTurn.

Record Device := mkDevice {
  globals : Globals;
  trace : list Event;
  halted : bool
}.

Definition handler_of (i : Input) : M unit :=
  match i with
  | ButtonEdge => button_isr_handler BUTTON_GPIO
  | ButtonTaskTurn => button_task_body
  | Dispatch b id d => event_handler b id d
  | MainTurn => app_main_idle
  end.

(** One handler run on the device: its events are appended to the trace; a
    suspended handler leaves the static variables as they were; [abort()]
    restarts the chip, which clears them. *)
Definition exec (env : Env) (d : Device) (m : M unit) : Device :=
  if halted d then d
  else
    match run env (List.length (trace d)) (m (globals d)) with
    | (Done (_, g), tr) =>
        {| globals := g; trace := (trace d ++ tr)%list; halted := false |}
    | (Aborted, tr) =>
        {| globals := globals_init; trace := (trace d ++ tr)%list;
           halted := true |}
    | (Blocked, tr) =>
        {| globals := globals d; trace := (trace d ++ tr)%list;
           halted := false |}
    end.

Definition power_on : Device :=
  {| globals := globals_init; trace := []; halted := false |}.

Definition boot (env : Env) : Device := exec env power_on app_main_setup.

Definition step (env : Env) (d : Device) (i : Input) : Device :=
  exec env d (handler_of i).

Definition device (env : Env) (inputs : list Input) : Device :=
  fold_left (step env) inputs (boot env).

(** ** The boot, preempted

    [app_main] creates [button_task] at line 152, with priority 10 (ESP-IDF
    runs [app_main] itself at priority 1), and registers the interrupt
    handler at line 154; nothing makes the button task wait for the rest of
    the boot.  From line 154 on, an edge queues an identifier and the
    button task runs side by side with lines 157-165 of [app_main].  Here
    the two tasks are interleaved call by call: a slot of the schedule lets
    the interrupt handler run, or lets one of the two tasks go on up to and
    including its next library call.
    Lines 157-165 write no static variable, and a turn of the button task
    writes none once it has taken its identifier from the queue, so each
    task keeps what it has left to do as a program of its own. *)

Inductive Slot :=
| Edge
| MainCall
| ButtonCall.

Record Tasks := mkTasks {
  shared : Device;
  main_rest : Prog (unit * Globals);
  button_rest : option (Prog (unit * Globals))
}.

Definition is_abort {A} (p : Prog A) : bool :=
  match p with Abort => true | _ => false end.

Definition is_ret {A} (p : Prog A) : bool :=
  match p with Ret _ => true | _ => false end.

(** A task makes call [c] and is left with [k] of the reply; [abort()]
    right behind the call, as in [ESP_ERROR_CHECK], ends the firmware. *)
Definition make_call (env : Env) (d : Device) (c : Call)
    (k : Reply -> Prog (unit * Globals)) : Device * Prog (unit * Globals) :=
  let r := env (List.length (trace d)) c in
  ({| globals := if is_abort (k r) then globals_init else globals d;
      trace := (trace d ++ [(c, r)])%list;
      halted := is_abort (k r) |},
   k r).

(** The static variables once [xQueueReceive] (line 102) has handed out an
    identifier. *)
Definition received (g : Globals) : Globals :=
  match xQueueReceive_portMAX_DELAY g with
  | Ret (_, g') => g'
  | _ => g
  end.

Definition main_call (env : Env) (t : Tasks) : Tasks :=
  match main_rest t with
  | Do c k =>
      let '(d, p) := make_call env (shared t) c k in
      {| shared := d; main_rest := p; button_rest := button_rest t |}
  | _ => t
  end.

(** The button task in the middle of a turn makes its next call; at the
    top of its loop it starts a turn of [button_task_body]: it stays
    suspended on an empty queue, and otherwise takes the oldest identifier
    and makes the first call of the turn. *)
Definition button_call (env : Env) (t : Tasks) : Tasks :=
  let d := shared t in
  match button_rest t with
  | Some (Do c k) =>
      let '(d', p) := make_call env d c k in
      {| shared := d'; main_rest := main_rest t;
         button_rest := if is_ret p then None else Some p |}
  | Some _ => t
  | None =>
      match button_task_body (globals d) with
      | Do c k =>
          let '(d', p) :=
            make_call env
              {| globals := received (globals d); trace := trace d;
                 halted := false |} c k in
          {| shared := d'; main_rest := main_rest t;
             button_rest := if is_ret p then None else Some p |}
      | Abort =>
          {| shared := {| globals := globals_init; trace := trace d;
                          halted := true |};
             main_rest := main_rest t; button_rest := None |}
      | _ => t
      end
  end.

Definition slot_step (env : Env) (t : Tasks) (s : Slot) : Tasks :=
  if halted (shared t) then t
  else
    match s with
    | Edge =>
        {| shared := exec env (shared t) (button_isr_handler BUTTON_GPIO);
           main_rest := main_rest t; button_rest := button_rest t |}
    | MainCall => main_call env t
    | ButtonCall => button_call env t
    end.

(** The device when line 154 has returned: [app_main] has lines 157-165
    before it, the button task waits at line 102. *)
Definition boot_to_line_154 (env : Env) : Device :=
  exec env (exec env power_on app_main_nvs) app_main_init.

Definition tasks_at_line_154 (env : Env) : Tasks :=
  {| shared := boot_to_line_154 env;
     main_rest := app_main_check (globals (boot_to_line_154 env));
     button_rest := None |}.

Definition schedule (env : Env) (slots : list Slot) : Tasks :=
  fold_left (slot_step env) slots (tasks_at_line_154 env).

(** A press during the boot: the edge comes once the handler is
    registered, the button task waits its settle delay while [app_main]
    makes the query, logs and calls init (lines 158, 159, 73); the button
    task then samples the pin and goes through lines 105-108 up to its
    start call, before [app_main] makes the start call of line 74. *)
Definition press_during_boot : list Slot :=
  [Edge; ButtonCall; MainCall; MainCall; MainCall]
  ++ repeat ButtonCall 8 ++ [MainCall].

(** ** Environments used in the examples *)

Definition ok : Reply := {| ret := ESP_OK; out := NoOut |}.
Definition returns (v : Z) : Reply := {| ret := v; out := NoOut |}.

Definition sample_mac : list byte := [x24; x6f; x28; x0a; xbc; xde].

(** Every call succeeds, the device holds no credentials, the button reads
    pressed. *)
Definition env_fresh : Env := fun _ c =>
  match c with
  | esp_wifi_get_mac => {| ret := ESP_OK; out := OutMac sample_mac |}
  | wifi_prov_mgr_is_provisioned => {| ret := ESP_OK; out := OutBool false |}
  | xQueueCreate _ => returns 1
  | xTaskCreate _ _ _ => returns 1
  | gpio_get_level _ => returns 1
  | _ => ok
  end.

(** As [env_fresh], with credentials already stored. *)
Definition env_provisioned : Env := fun n c =>
  match c with
  | wifi_prov_mgr_is_provisioned => {| ret := ESP_OK; out := OutBool true |}
  | _ => env_fresh n c
  end.

(** Replace the answer to call number [n]. *)
Definition answer_at (n : nat) (r : Reply) (env : Env) : Env := fun m c =>
  if Nat.eqb m n then r else env m c.

(** Replace the answer to every call of one library function. *)
Definition call_is (f c : Call) : bool :=
  if Call_eq_dec f c then true else false.

Definition answer_to (f : Call) (r : Reply) (env : Env) : Env := fun n c =>
  if call_is f c then r else env n c.

(** ** Observations on a trace *)

Definition calls (tr : list Event) : list Call := map fst tr.

(** The calls into the provisioning manager. *)
Definition is_prov_mgr_call (c : Call) : bool :=
  match c with
  | wifi_prov_mgr_is_provisioned | wifi_prov_mgr_init
  | wifi_prov_mgr_start_provisioning _ _ _
  | wifi_prov_mgr_stop_provisioning | wifi_prov_mgr_reset_provisioning
  | wifi_prov_mgr_deinit => true
  | _ => false
  end.

Definition prov_calls (cs : list Call) : list Call :=
  filter is_prov_mgr_call cs.

Definition is_start_call (c : Call) : bool :=
  match c with
  | wifi_prov_mgr_start_provisioning _ _ _ => true
  | _ => false
  end.

(** The calls of the re-provisioning sequence: the radio's disconnect and
    the calls into the provisioning manager. *)
Definition is_sequence_call (c : Call) : bool :=
  match c with
  | esp_wifi_disconnect => true
  | _ => is_prov_mgr_call c
  end.

(** What a mock of the provisioning manager sees of the session: active
    from a start until the next stop or deinit. *)
Definition session_step (active : bool) (c : Call) : bool :=
  match c with
  | wifi_prov_mgr_start_provisioning _ _ _ => true
  | wifi_prov_mgr_stop_provisioning | wifi_prov_mgr_deinit => false
  | _ => active
  end.

Definition session_active (cs : list Call) : bool :=
  fold_left session_step cs false.

(** The log line of line 105, which announces a re-provisioning.  It tells
    that the sample read pressed; that the calls of lines 106-108 follow it
    is stated on those calls themselves. *)
Definition is_trigger (e : Event) : bool :=
  call_is (ESP_LOGI "Triggering reprovisioning" []) (fst e).

Definition triggers (tr : list Event) : nat :=
  List.length (filter is_trigger tr).

(** A sample of the pin (line 104), and one that reads pressed. *)
Definition is_sample (e : Event) : bool :=
  match fst e with gpio_get_level _ => true | _ => false end.

Definition is_pressed_sample (e : Event) : bool :=
  is_sample e && negb (ret (snd e) =? 0)%Z.

Definition samples (tr : list Event) : nat :=
  List.length (filter is_sample tr).

Definition pressed_samples (tr : list Event) : nat :=
  List.length (filter is_pressed_sample tr).

Definition is_settle_delay (e : Event) : bool :=
  call_is (vTaskDelay (pdMS_TO_TICKS DEBOUNCE_MS)) (fst e).

(** The identifiers waiting in [button_queue]. *)
Definition pending (g : Globals) : list Z :=
  match button_queue g with
  | Some q => q_items q
  | None => []
  end.

(** Where the provisioning manager stands, as far as its calls tell; used
    to follow the device through its inputs. *)
Inductive Phase :=
| PowerOn
| Checked
| Initialised
| Running
| Stopped
| ResetDone
| TornDown
| Violation.

Definition phase_step (p : Phase) (c : Call) : Phase :=
  match c with
  | wifi_prov_mgr_is_provisioned =>
      match p with PowerOn => Checked | _ => Violation end
  | wifi_prov_mgr_init =>
      match p with Checked | TornDown => Initialised | _ => Violation end
  | wifi_prov_mgr_start_provisioning _ _ _ =>
      match p with Initialised => Running | _ => Violation end
  | wifi_prov_mgr_stop_provisioning =>
      match p with Checked | Running => Stopped | _ => Violation end
  | wifi_prov_mgr_reset_provisioning =>
      match p with Stopped => ResetDone | _ => Violation end
  | wifi_prov_mgr_deinit =>
      match p with ResetDone => TornDown | _ => Violation end
  | _ => p
  end.

Definition phase_from (p : Phase) (cs : list Call) : Phase :=
  fold_left phase_step cs p.

Definition phase_of (cs : list Call) : Phase := phase_from PowerOn cs.

(** ** Reading the payload back

    A reader of compact JSON objects whose values are strings, as the
    scanning client needs it: white space between tokens, the two-character
    escapes, no control character inside a string. *)

Module Json.

Definition is_dquote (c : ascii) : bool := Ascii.eqb c "034"%char.
Definition is_backslash (c : ascii) : bool := Ascii.eqb c "092"%char.
Definition is_control (c : ascii) : bool := (N_of_ascii c <? 32)%N.

Definition is_ws (c : ascii) : bool :=
  Ascii.eqb c " "%char || Ascii.eqb c "009"%char
  || Ascii.eqb c "010"%char || Ascii.eqb c "013"%char.

Fixpoint skip_ws (s : string) : string :=
  match s with
  | String c r => if is_ws c then skip_ws r else s
  | EmptyString => s
  end.

Definition unescape (c : ascii) : option ascii :=
  if is_dquote c then Some c
  else if is_backslash c then Some c
  else if Ascii.eqb c "/"%char then Some c
  else if Ascii.eqb c "b"%char then Some "008"%char
  else if Ascii.eqb c "f"%char then Some "012"%char
  else if Ascii.eqb c "n"%char then Some "010"%char
  else if Ascii.eqb c "r"%char then Some "013"%char
  else if Ascii.eqb c "t"%char then Some "009"%char
  else None.

(** The text of a string up to its closing quote, and what follows it. *)
Fixpoint parse_string_body (s : string) : option (string * string) :=
  match s with
  | EmptyString => None
  | String c r =>
      if is_dquote c then Some (EmptyString, r)
      else if is_backslash c then
        match r with
        | EmptyString => None
        | String e r' =>
            match unescape e, parse_string_body r' with
            | Some x, Some (v, rest) => Some (String x v, rest)
            | _, _ => None
            end
        end
      else if is_control c then None
      else
        match parse_string_body r with
        | Some (v, rest) => Some (String c v, rest)
        | None => None
        end
  end.

Definition parse_string (s : string) : option (string * string) :=
  match skip_ws s with
  | String c r => if is_dquote c then parse_string_body r else None
  | EmptyString => None
  end.

Definition expect (t : ascii) (s : string) : option string :=
  match skip_ws s with
  | String c r => if Ascii.eqb c t then Some r else None
  | EmptyString => None
  end.

Definition at_end (s : string) : bool :=
  match skip_ws s with
  | EmptyString => true
  | _ => false
  end.

(** The members after the opening brace, up to the end of the text. *)
Fixpoint parse_members (fuel : nat) (s : string)
  : option (list (string * string)) :=
  match fuel with
  | O => None
  | S fuel' =>
      match parse_string s with
      | None => None
      | Some (key, s1) =>
          match expect ":"%char s1 with
          | None => None
          | Some s2 =>
              match parse_string s2 with
              | None => None
              | Some (value, s3) =>
                  match expect ","%char s3, expect "}"%char s3 with
                  | Some s4, _ =>
                      match parse_members fuel' s4 with
                      | Some more => Some ((key, value) :: more)
                      | None => None
                      end
                  | None, Some s4 =>
                      if at_end s4 then Some [(key, value)] else None
                  | None, None => None
                  end
              end
          end
      end
  end.

Definition parse_object (s : string) : option (list (string * string)) :=
  match expect "{"%char s with
  | None => None
  | Some s1 =>
      match expect "}"%char s1 with
      | Some s2 => if at_end s2 then Some [] else None
      | None => parse_members (String.length s) s1
      end
  end.

(** A text that stands for itself between quotes: no quote, no backslash,
    no control character. *)
Definition plain_char (c : ascii) : bool :=
  negb (is_dquote c) && negb (is_backslash c) && negb (is_control c).

Fixpoint plain (s : string) : bool :=
  match s with
  | EmptyString => true
  | String c r => plain_char c && plain r
  end.

End Json.

(** The four fields handed to the encoder. *)
Definition payload_fields (name : string) : list (string * string) :=
  [("ver", PROV_QR_VERSION); ("name", name); ("pop", pop);
   ("transport", PROV_TRANSPORT_BLE)].

(** Reading hexadecimal back. *)
Definition hex_value (c : ascii) : option N :=
  let n := N_of_ascii c in
  if ((48 <=? n) && (n <=? 57))%N then Some (n - 48)%N
  else if ((65 <=? n) && (n <=? 70))%N then Some (n - 55)%N
  else None.

Definition is_upper_hex (c : ascii) : bool :=
  match hex_value c with Some _ => true | None => false end.

Fixpoint all_upper_hex (s : string) : bool :=
  match s with
  | EmptyString => true
  | String c r => is_upper_hex c && all_upper_hex r
  end.

Fixpoint hex_bytes (s : string) : option (list N) :=
  match s with
  | EmptyString => Some []
  | String hi (String lo r) =>
      match hex_value hi, hex_value lo, hex_bytes r with
      | Some h, Some l, Some bs => Some ((16 * h + l)%N :: bs)
      | _, _, _ => None
      end
  | String _ EmptyString => None
  end.

(** ** Further notions used in the statements *)

(** The start call of line 74, for the current service name. *)
Definition start_call (g : Globals) : Call :=
  wifi_prov_mgr_start_provisioning WIFI_PROV_SECURITY_1 pop (service_name g).

(** The calls of the re-provisioning sequence among those of a trace. *)
Definition sequence_calls (tr : list Event) : list Call :=
  filter is_sequence_call (calls tr).

Definition is_edge (i : Input) : bool :=
  match i with ButtonEdge => true | _ => false end.

Definition edges (inputs : list Input) : nat :=
  List.length (filter is_edge inputs).

(** Static variables after boot, with one identifier waiting. *)
Definition globals_pending : Globals :=
  {| service_name := service_name_text sample_mac;
     button_queue :=
       Some {| q_length := BUTTON_QUEUE_LENGTH; q_items := [BUTTON_GPIO] |} |}.

Definition env_init_fails : Env :=
  answer_to wifi_prov_mgr_init (returns ESP_ERR_NO_MEM) env_fresh.

Definition env_reset_fails : Env :=
  answer_to wifi_prov_mgr_reset_provisioning (returns ESP_FAIL) env_fresh.

Definition env_nvs_not_found : Env :=
  answer_at 0 (returns ESP_ERR_NOT_FOUND) env_fresh.


(** Credentials are stored, and the provisioning manager has no memory to
    initialise. *)
Definition env_provisioned_init_fails : Env :=
  answer_to wifi_prov_mgr_init (returns ESP_ERR_NO_MEM) env_provisioned.

(** The static variables once the oldest identifier is taken from [q]. *)
Definition taken (g : Globals) (q : Queue) (rest : list Z) : Globals :=
  {| service_name := service_name g;
     button_queue := Some {| q_length := q_length q; q_items := rest |} |}.

(** The static variables once [item] is added to [q]. *)
Definition added (g : Globals) (q : Queue) (item : Z) : Globals :=
  {| service_name := service_name g;
     button_queue :=
       Some {| q_length := q_length q;
               q_items := (q_items q ++ [item])%list |} |}.

(** The settle delay and the sample of one turn of the button task that
    starts after [n] calls. *)
Definition press_prefix (env : Env) (n : nat) (io : Z) : list Event :=
  [(vTaskDelay (pdMS_TO_TICKS DEBOUNCE_MS),
    env n (vTaskDelay (pdMS_TO_TICKS DEBOUNCE_MS)));
   (gpio_get_level io, env (1 + n)%nat (gpio_get_level io))].

(** An event that is no part of a re-provisioning: no call of the
    sequence, no sample of the pin, no trigger. *)
Definition is_quiet (e : Event) : bool :=
  negb (is_sequence_call (fst e)) && negb (is_sample e)
  && negb (is_trigger e).

Definition Quiet (tr : list Event) : Prop :=
  Forall (fun e => is_quiet e = true) tr.

(** A handler that never waits on the queue. *)
Definition never_blocks (m : M unit) : Prop :=
  forall env n g, fst (run env n (m g)) <> Blocked.

(** What holds of the device after any inputs, [n] of them edges on the
    button pin: the calls into the provisioning manager follow its
    protocol, each pressed sample gave one trigger, each sample used up one
    queued edge, and the queue keeps its length of 5. *)
Definition phase_ok (d : Device) : Prop :=
  phase_of (calls (trace d)) <> Violation
  /\ (halted d = false ->
      phase_of (calls (trace d)) = Checked
      \/ phase_of (calls (trace d)) = Running).

Definition queue_ok (g : Globals) : Prop :=
  match button_queue g with
  | Some q =>
      q_length q = BUTTON_QUEUE_LENGTH
      /\ (List.length (q_items q) <= BUTTON_QUEUE_LENGTH)%nat
  | None => True
  end.

Definition sound (d : Device) (n : nat) : Prop :=
  phase_ok d
  /\ triggers (trace d) = pressed_samples (trace d)
  /\ (samples (trace d) + List.length (pending (globals d)) <= n)%nat
  /\ queue_ok (globals d).


(** ** Notions for the further properties *)

(** How often a call occurs in a trace. *)
Definition count_call (f : Call) (tr : list Event) : nat :=
  count_occ Call_eq_dec (calls tr) f.

(** The calls of lines 106-107 and the init of line 73 were each made [k]
    times. *)
Definition torn_down (k : nat) (tr : list Event) : Prop :=
  count_call esp_wifi_disconnect tr = k
  /\ count_call wifi_prov_mgr_stop_provisioning tr = k
  /\ count_call wifi_prov_mgr_reset_provisioning tr = k
  /\ count_call wifi_prov_mgr_deinit tr = k
  /\ count_call wifi_prov_mgr_init tr = k.

Definition start_calls (tr : list Event) : nat :=
  List.length (filter is_start_call (calls tr)).

Definition is_log_call (c : Call) : bool :=
  match c with ESP_LOGI _ _ => true | _ => false end.

(** The calls that read the MAC address or carry the service name. *)
Definition is_naming_call (c : Call) : bool :=
  match c with
  | esp_wifi_get_mac | wifi_prov_mgr_start_provisioning _ _ _
  | esp_qrcode_generate _ => true
  | _ => false
  end.

(** A call that carries a service name carries [name], with security 1 and
    the proof of possession of line 28. *)
Definition carries (name : string) (c : Call) : Prop :=
  match c with
  | wifi_prov_mgr_start_provisioning security pop_ service_name_ =>
      security = WIFI_PROV_SECURITY_1 /\ pop_ = pop /\ service_name_ = name
  | esp_qrcode_generate payload => payload = qr_payload name
  | _ => True
  end.

(** The calls whose result [ESP_ERROR_CHECK] tests during the boot. *)
Definition is_checked_call (c : Call) : bool :=
  match c with
  | nvs_flash_erase | nvs_flash_init | esp_wifi_init | wifi_prov_mgr_init
  | wifi_prov_mgr_start_provisioning _ _ _ => true
  | _ => false
  end.

(** The last call of a boot that ran to its end. *)
Definition is_final_call (c : Call) : bool :=
  match c with
  | esp_qrcode_generate _ | esp_wifi_start => true
  | _ => false
  end.

(** * Properties *)

(** ** Running programs *)

Lemma run_pbind {A B} (env : Env) (p : Prog A) (f : A -> Prog B) (n : nat) :
  run env n (pbind p f)
  = match run env n p with
    | (Done a, tr) =>
        let '(o, tr') := run env (n + List.length tr) (f a) in
        (o, (tr ++ tr')%list)
    | (Aborted, tr) => (Aborted, tr)
    | (Blocked, tr) => (Blocked, tr)
    end.
Proof.
  revert n. induction p as [a| | |c k IH]; intros n; cbn.
  - rewrite Nat.add_0_r. destruct (run env n (f a)). reflexivity.
  - reflexivity.
  - reflexivity.
  - rewrite IH. destruct (run env (S n) (k (env n c))) as [[a| |] tr]; cbn.
    + rewrite Nat.add_succ_r.
      destruct (run env (S (n + List.length tr)) (f a)). reflexivity.
    + reflexivity.
    + reflexivity.
Qed.

Lemma run_start_provisioning (env : Env) (n : nat) (g : Globals) :
  run env n (start_provisioning g)
  = let i := env n wifi_prov_mgr_init in
    let s := env (1 + n)%nat (start_call g) in
    if (ret i =? ESP_OK)%Z then
      if (ret s =? ESP_OK)%Z then
        (Done (tt, g),
         [(wifi_prov_mgr_init, i); (start_call g, s);
          (ESP_LOGI "Scan this QR code for provisioning:" [],
           env (2 + n)%nat (ESP_LOGI "Scan this QR code for provisioning:" []));
          (esp_qrcode_generate (qr_payload (service_name g)),
           env (3 + n)%nat
             (esp_qrcode_generate (qr_payload (service_name g))))])
      else (Aborted, [(wifi_prov_mgr_init, i); (start_call g, s)])
    else (Aborted, [(wifi_prov_mgr_init, i)]).
Proof.
  cbv zeta.
  unfold start_provisioning, ESP_ERROR_CHECK, mbind, call, gets, mret, abort.
  cbn. destruct (ret (env n wifi_prov_mgr_init) =? ESP_OK)%Z; cbn;
    [|reflexivity].
  fold (start_call g).
  destruct (ret (env (S n) (start_call g)) =? ESP_OK)%Z; cbn; reflexivity.
Qed.

Lemma run_stop_provisioning (env : Env) (n : nat) (g : Globals) :
  run env n (stop_provisioning g)
  = (Done (tt, g),
     [(wifi_prov_mgr_stop_provisioning,
       env n wifi_prov_mgr_stop_provisioning);
      (wifi_prov_mgr_reset_provisioning,
       env (1 + n)%nat wifi_prov_mgr_reset_provisioning);
      (wifi_prov_mgr_deinit, env (2 + n)%nat wifi_prov_mgr_deinit)]).
Proof. reflexivity. Qed.

Lemma run_button_task_body (env : Env) (n : nat) (g : Globals) (q : Queue)
    (io : Z) (rest : list Z) :
  button_queue g = Some q -> q_items q = io :: rest ->
  run env n (button_task_body g)
  = if (ret (env (1 + n)%nat (gpio_get_level io)) =? 0)%Z then
      (Done (tt, taken g q rest), press_prefix env n io)
    else
      let '(o, tr) :=
        run env (7 + n)%nat (start_provisioning (taken g q rest)) in
      (o, (press_prefix env n io
           ++ [(ESP_LOGI "Triggering reprovisioning" [],
                env (2 + n)%nat (ESP_LOGI "Triggering reprovisioning" []));
               (esp_wifi_disconnect, env (3 + n)%nat esp_wifi_disconnect);
               (wifi_prov_mgr_stop_provisioning,
                env (4 + n)%nat wifi_prov_mgr_stop_provisioning);
               (wifi_prov_mgr_reset_provisioning,
                env (5 + n)%nat wifi_prov_mgr_reset_provisioning);
               (wifi_prov_mgr_deinit,
                env (6 + n)%nat wifi_prov_mgr_deinit)]
           ++ tr)%list).
Proof.
  intros Hq Hitems. cbn [Nat.add].
  unfold button_task_body, mbind at 1, xQueueReceive_portMAX_DELAY.
  rewrite Hq, Hitems. cbn [pbind]. fold (taken g q rest).
  change (pdTRUE =? 0)%Z with false. cbv iota.
  unfold mbind at 1, call at 1. cbn [pbind run].
  unfold mbind at 1, call at 1. cbn [pbind run].
  destruct (ret (env (S n) (gpio_get_level io)) =? 0)%Z eqn:Hlvl.
  - reflexivity.
  - unfold mbind at 1, call at 1. cbn [pbind run].
    unfold mbind at 1, call at 1. cbn [pbind run].
    unfold mbind at 1. rewrite run_pbind, run_stop_provisioning.
    cbn [List.length].
    replace (S (S (S (S n))) + 3)%nat
      with (S (S (S (S (S (S (S n))))))) by lia.
    destruct (run env (S (S (S (S (S (S (S n)))))))
                (start_provisioning (taken g q rest))) as [o tr] eqn:E.
    reflexivity.
Qed.

Lemma run_button_task_body_null (env : Env) (n : nat) (g : Globals) :
  button_queue g = None -> run env n (button_task_body g) = (Aborted, []).
Proof.
  intros Hq. unfold button_task_body, mbind, xQueueReceive_portMAX_DELAY.
  rewrite Hq. reflexivity.
Qed.

Lemma run_button_task_body_empty (env : Env) (n : nat) (g : Globals)
    (q : Queue) :
  button_queue g = Some q -> q_items q = [] ->
  run env n (button_task_body g) = (Blocked, []).
Proof.
  intros Hq Hitems.
  unfold button_task_body, mbind, xQueueReceive_portMAX_DELAY.
  rewrite Hq, Hitems. reflexivity.
Qed.

Lemma button_isr_handler_full (g : Globals) (q : Queue) (item : Z) :
  button_queue g = Some q -> queue_full q = true ->
  button_isr_handler item g = Ret (tt, g).
Proof.
  intros Hq Hfull. unfold button_isr_handler, mbind, xQueueSendFromISR.
  rewrite Hq, Hfull. reflexivity.
Qed.

Lemma button_isr_handler_room (g : Globals) (q : Queue) (item : Z) :
  button_queue g = Some q -> queue_full q = false ->
  button_isr_handler item g = Ret (tt, added g q item).
Proof.
  intros Hq Hfull. unfold button_isr_handler, mbind, xQueueSendFromISR.
  rewrite Hq, Hfull. reflexivity.
Qed.

Lemma button_isr_handler_null (g : Globals) (item : Z) :
  button_queue g = None -> button_isr_handler item g = Abort.
Proof.
  intros Hq. unfold button_isr_handler, mbind, xQueueSendFromISR.
  rewrite Hq. reflexivity.
Qed.

(** Case analysis on the tests of return values in the goal. *)
Ltac split_replies :=
  repeat match goal with
  | |- context [if (ret ?r =? ?v)%Z then _ else _] =>
      let E := fresh "E" in destruct (ret r =? v)%Z eqn:E
  end.

(** ** Service name *)

Lemma fmt_02X_upper_hex (b : byte) : all_upper_hex (fmt_02X b) = true.
Proof. destruct b; reflexivity. Qed.

Lemma fmt_02X_plain (b : byte) : Json.plain (fmt_02X b) = true.
Proof. destruct b; reflexivity. Qed.

Lemma fmt_02X_reads_back (b : byte) (rest : string) (bs : list N) :
  hex_bytes rest = Some bs ->
  hex_bytes (fmt_02X b ++ rest) = Some (Byte.to_N b :: bs).
Proof. intros H. destruct b; cbn; rewrite H; reflexivity. Qed.

Lemma all_upper_hex_app (a b : string) :
  all_upper_hex (a ++ b) = all_upper_hex a && all_upper_hex b.
Proof.
  induction a as [|c a IH]; cbn; [reflexivity|].
  rewrite IH, andb_assoc. reflexivity.
Qed.

Lemma json_plain_app (a b : string) :
  Json.plain (a ++ b) = Json.plain a && Json.plain b.
Proof.
  induction a as [|c a IH]; cbn [append Json.plain]; [reflexivity|].
  rewrite IH, andb_assoc. reflexivity.
Qed.

Lemma service_name_text_plain (mac : list byte) :
  Json.plain (service_name_text mac) = true.
Proof.
  unfold service_name_text.
  rewrite !json_plain_app, !fmt_02X_plain. reflexivity.
Qed.

Lemma service_name_text_length (mac : list byte) :
  String.length (service_name_text mac) = 11%nat.
Proof. reflexivity. Qed.

(** ** Payload *)

Lemma length_append (a b : string) :
  String.length (a ++ b) = (String.length a + String.length b)%nat.
Proof. induction a as [|c a IH]; cbn; [reflexivity | now rewrite IH]. Qed.

Lemma substring_whole (s : string) (n : nat) :
  (String.length s <= n)%nat -> substring 0 n s = s.
Proof.
  revert n.
  induction s as [|c s IH]; intros [|n] H; cbn in *;
    try reflexivity; try lia.
  rewrite IH by lia. reflexivity.
Qed.

Lemma snprintf_fits (max : nat) (s : string) :
  (String.length s < max)%nat -> snprintf max s = s.
Proof. intros H. apply substring_whole. lia. Qed.

Lemma parse_string_body_plain (v rest : string) :
  Json.plain v = true ->
  Json.parse_string_body (v ++ String "034"%char rest) = Some (v, rest).
Proof.
  induction v as [|c v IH]; intros H;
    cbn [append Json.parse_string_body Json.plain] in *.
  - reflexivity.
  - apply andb_prop in H. destruct H as [Hc Hv].
    unfold Json.plain_char in Hc.
    apply andb_prop in Hc. destruct Hc as [Hc Hctl].
    apply andb_prop in Hc. destruct Hc as [Hq Hb].
    apply negb_true_iff in Hq, Hb, Hctl.
    rewrite Hq, Hb, Hctl, (IH Hv). reflexivity.
Qed.

Lemma payload_text_length (name : string) :
  String.length (payload_text PROV_QR_VERSION name pop PROV_TRANSPORT_BLE)
  = (57 + String.length name)%nat.
Proof. unfold payload_text. cbn. rewrite length_append. cbn. lia. Qed.

Lemma payload_text_reads_back (name : string) :
  Json.plain name = true ->
  Json.parse_object
    (payload_text PROV_QR_VERSION name pop PROV_TRANSPORT_BLE)
  = Some (payload_fields name).
Proof.
  intros H. unfold Json.parse_object, payload_text. cbn.
  unfold Json.parse_string at 1. cbn.
  unfold Json.parse_string at 1. cbn.
  rewrite (parse_string_body_plain name _ H). cbn.
  reflexivity.
Qed.

(** ** One turn of the button task *)

Lemma pressed_turn_sequence (env : Env) (n : nat) (g : Globals) (q : Queue)
    (io : Z) (rest : list Z) (o : Outcome (unit * Globals))
    (tr : list Event) :
  button_queue g = Some q -> q_items q = io :: rest ->
  run env n (button_task_body g) = (o, tr) ->
  pressed_samples tr = 1%nat ->
  exists r_init,
    In (wifi_prov_mgr_init, r_init) tr
    /\ sequence_calls tr
       = ([esp_wifi_disconnect; wifi_prov_mgr_stop_provisioning;
           wifi_prov_mgr_reset_provisioning; wifi_prov_mgr_deinit;
           wifi_prov_mgr_init]
          ++ (if (ret r_init =? ESP_OK)%Z then [start_call g] else []))%list
    /\ ((ret r_init =? ESP_OK)%Z = false -> o = Aborted).
Proof.
  intros Hq Hitems Hrun Hpressed.
  rewrite (run_button_task_body env n g q io rest Hq Hitems),
    run_start_provisioning in Hrun.
  cbv zeta in Hrun. unfold press_prefix in Hrun. cbn [Nat.add app] in Hrun.
  destruct (ret (env (S n) (gpio_get_level io)) =? 0)%Z eqn:Hlvl.
  - inversion Hrun; subst o tr. clear Hrun.
    unfold pressed_samples, is_pressed_sample in Hpressed.
    cbn in Hpressed. rewrite Hlvl in Hpressed. discriminate.
  - exists (env (S (S (S (S (S (S (S n))))))) wifi_prov_mgr_init).
    destruct (ret (env (S (S (S (S (S (S (S n))))))) wifi_prov_mgr_init)
              =? ESP_OK)%Z eqn:Hinit.
    + destruct (ret (env (S (S (S (S (S (S (S (S n))))))))
                       (start_call (taken g q rest))) =? ESP_OK)%Z;
        inversion Hrun; subst o tr; clear Hrun;
        (split; [cbn; tauto|]); (split; [reflexivity | discriminate]).
    + inversion Hrun; subst o tr. clear Hrun.
      split; [cbn; tauto|]. split; reflexivity.
Qed.

(** ** Observations are additive *)

Lemma calls_app (a b : list Event) :
  calls (a ++ b) = (calls a ++ calls b)%list.
Proof. apply map_app. Qed.

Lemma triggers_app (a b : list Event) :
  triggers (a ++ b) = (triggers a + triggers b)%nat.
Proof. unfold triggers. rewrite filter_app, length_app. reflexivity. Qed.

Lemma samples_app (a b : list Event) :
  samples (a ++ b) = (samples a + samples b)%nat.
Proof. unfold samples. rewrite filter_app, length_app. reflexivity. Qed.

Lemma pressed_samples_app (a b : list Event) :
  pressed_samples (a ++ b) = (pressed_samples a + pressed_samples b)%nat.
Proof.
  unfold pressed_samples. rewrite filter_app, length_app. reflexivity.
Qed.

Lemma phase_from_app (p : Phase) (a b : list Call) :
  phase_from p (a ++ b) = phase_from (phase_from p a) b.
Proof. apply fold_left_app. Qed.

Lemma prov_calls_app (a b : list Call) :
  prov_calls (a ++ b) = (prov_calls a ++ prov_calls b)%list.
Proof. apply filter_app. Qed.

Lemma Quiet_app (a b : list Event) : Quiet a -> Quiet b -> Quiet (a ++ b).
Proof. intros Ha Hb. apply Forall_app. split; assumption. Qed.

Lemma is_quiet_inv (e : Event) :
  is_quiet e = true ->
  is_sequence_call (fst e) = false /\ is_sample e = false
  /\ is_trigger e = false.
Proof.
  unfold is_quiet. intros H.
  apply andb_prop in H. destruct H as [H Ht].
  apply andb_prop in H. destruct H as [Hs Hp].
  apply negb_true_iff in Hs, Hp, Ht. auto.
Qed.

Lemma is_sequence_call_prov (c : Call) :
  is_sequence_call c = false -> is_prov_mgr_call c = false.
Proof. destruct c; cbn; congruence. Qed.

Lemma phase_step_other (p : Phase) (c : Call) :
  is_prov_mgr_call c = false -> phase_step p c = p.
Proof. destruct c; cbn; congruence. Qed.

Lemma session_step_other (s : bool) (c : Call) :
  is_prov_mgr_call c = false -> session_step s c = s.
Proof. destruct c; cbn; congruence. Qed.

Lemma Quiet_triggers (tr : list Event) : Quiet tr -> triggers tr = 0%nat.
Proof.
  induction 1 as [|e tr He _ IH]; [reflexivity|].
  apply is_quiet_inv in He. destruct He as [_ [_ Ht]].
  unfold triggers in *. cbn. rewrite Ht. exact IH.
Qed.

Lemma Quiet_samples (tr : list Event) : Quiet tr -> samples tr = 0%nat.
Proof.
  induction 1 as [|e tr He _ IH]; [reflexivity|].
  apply is_quiet_inv in He. destruct He as [_ [Hs _]].
  unfold samples in *. cbn. rewrite Hs. exact IH.
Qed.

Lemma Quiet_pressed_samples (tr : list Event) :
  Quiet tr -> pressed_samples tr = 0%nat.
Proof.
  induction 1 as [|e tr He _ IH]; [reflexivity|].
  apply is_quiet_inv in He. destruct He as [_ [Hs _]].
  unfold pressed_samples, is_pressed_sample in *. cbn. rewrite Hs. exact IH.
Qed.

Lemma Quiet_sequence_calls (tr : list Event) :
  Quiet tr -> sequence_calls tr = [].
Proof.
  induction 1 as [|e tr He _ IH]; [reflexivity|].
  apply is_quiet_inv in He. destruct He as [Hc _].
  unfold sequence_calls in *. cbn. rewrite Hc. exact IH.
Qed.

Lemma Quiet_prov_calls (tr : list Event) :
  Quiet tr -> prov_calls (calls tr) = [].
Proof.
  induction 1 as [|e tr He _ IH]; [reflexivity|].
  apply is_quiet_inv in He. destruct He as [Hc _].
  apply is_sequence_call_prov in Hc.
  unfold prov_calls in *. cbn. rewrite Hc. exact IH.
Qed.

Lemma Quiet_phase (tr : list Event) (p : Phase) :
  Quiet tr -> phase_from p (calls tr) = p.
Proof.
  induction 1 as [|e tr He _ IH]; [reflexivity|].
  apply is_quiet_inv in He. destruct He as [Hc _].
  apply is_sequence_call_prov in Hc.
  unfold phase_from in *. cbn. rewrite (phase_step_other p _ Hc). exact IH.
Qed.

(** ** Handlers on the device *)

Lemma exec_halted (env : Env) (d : Device) (m : M unit) :
  halted d = true -> exec env d m = d.
Proof. intros H. unfold exec. rewrite H. reflexivity. Qed.

Lemma exec_seq (env : Env) (d : Device) (m1 m2 : M unit) :
  never_blocks m1 -> never_blocks m2 ->
  exec env d (m1 ;; m2) = exec env (exec env d m1) m2.
Proof.
  intros Hnb1 Hnb2. unfold exec at 1 3.
  destruct (halted d) eqn:Hh; [rewrite exec_halted by exact Hh;
                                 reflexivity|].
  unfold mbind. rewrite run_pbind.
  specialize (Hnb1 env (List.length (trace d)) (globals d)).
  destruct (run env (List.length (trace d)) (m1 (globals d)))
    as [[[u g]| |] tr]; cbn in Hnb1.
  - unfold exec. cbn [halted globals trace]. rewrite length_app.
    specialize (Hnb2 env (List.length (trace d) + List.length tr)%nat g).
    destruct (run env (List.length (trace d) + List.length tr) (m2 g))
      as [[[u' g']| |] tr']; cbn [globals trace halted];
      rewrite app_assoc; try reflexivity.
    cbn in Hnb2. congruence.
  - rewrite exec_halted by reflexivity. reflexivity.
  - congruence.
Qed.

Lemma never_blocks_seq (m1 m2 : M unit) :
  never_blocks m1 -> never_blocks m2 -> never_blocks (m1 ;; m2).
Proof.
  intros H1 H2 env n g. unfold mbind. rewrite run_pbind.
  specialize (H1 env n g).
  destruct (run env n (m1 g)) as [[[u g']| |] tr]; cbn in *;
    try congruence.
  specialize (H2 env (n + List.length tr)%nat g').
  destruct (run env (n + List.length tr) (m2 g')) as [o tr']. exact H2.
Qed.

Ltac quiet := repeat (constructor; try reflexivity).

Ltac split_tests :=
  repeat (match goal with
          | |- context [if ?b then _ else _] => destruct b
          end; cbn).

Lemma run_app_main_nvs (env : Env) (n : nat) (g : Globals) :
  exists o tr,
    run env n (app_main_nvs g) = (o, tr)
    /\ Quiet tr /\ (o = Aborted \/ o = Done (tt, g)).
Proof.
  unfold app_main_nvs, ESP_ERROR_CHECK, mbind, call, mret, abort. cbn.
  split_tests;
    do 2 eexists; (split; [reflexivity|]); (split; [quiet|]); auto.
Qed.

Lemma run_app_main_init (env : Env) (n : nat) (g : Globals) :
  exists o tr,
    run env n (app_main_init g) = (o, tr)
    /\ Quiet tr
    /\ (o = Aborted
        \/ exists g',
             o = Done (tt, g')
             /\ (button_queue g' = None
                 \/ button_queue g'
                    = Some {| q_length := BUTTON_QUEUE_LENGTH;
                              q_items := [] |})).
Proof.
  unfold app_main_init, get_device_service_name, ESP_ERROR_CHECK, mbind,
    call, mret, abort, modify. cbn.
  split_tests;
    do 2 eexists; (split; [reflexivity|]); (split; [quiet|]); auto;
    right; eexists; (split; [reflexivity|]); cbn; auto.
Qed.

Lemma run_event_handler (env : Env) (n : nat) (g : Globals)
    (b : esp_event_base_t) (id : Z) (data : event_data_t) :
  exists tr,
    run env n (event_handler b id data g) = (Done (tt, g), tr) /\ Quiet tr.
Proof.
  unfold event_handler.
  destruct b; cbn [event_base_is andb];
    repeat match goal with
    | |- context [if (?a =? ?b)%Z then _ else _] => destruct (a =? b)%Z
    end;
    eexists; (split; [reflexivity|]); quiet.
Qed.

Lemma run_app_main_idle (env : Env) (n : nat) (g : Globals) :
  exists tr,
    run env n (app_main_idle g) = (Done (tt, g), tr) /\ Quiet tr.
Proof. eexists. split; [reflexivity|]. quiet. Qed.

Lemma run_app_main_check (env : Env) (n : nat) (g : Globals) :
  run env n (app_main_check g)
  = let p := env n wifi_prov_mgr_is_provisioned in
    if negb (ret p =? ESP_OK)%Z || negb (reply_bool false p) then
      let '(o, tr) := run env (2 + n)%nat (start_provisioning g) in
      (o, (wifi_prov_mgr_is_provisioned, p)
          :: (ESP_LOGI "Starting initial provisioning" [],
              env (1 + n)%nat (ESP_LOGI "Starting initial provisioning" []))
          :: tr)
    else
      (Done (tt, g),
       [(wifi_prov_mgr_is_provisioned, p);
        (ESP_LOGI "Already provisioned, connecting..." [],
         env (1 + n)%nat (ESP_LOGI "Already provisioned, connecting..." []));
        (esp_wifi_set_mode, env (2 + n)%nat esp_wifi_set_mode);
        (esp_wifi_start, env (3 + n)%nat esp_wifi_start)]).
Proof.
  cbv zeta. unfold app_main_check, mbind at 1, call at 1. cbn [pbind run].
  destruct (negb (ret (env n wifi_prov_mgr_is_provisioned) =? ESP_OK)%Z
            || negb (reply_bool false (env n wifi_prov_mgr_is_provisioned))).
  - unfold mbind at 1, call at 1. cbn [pbind run Nat.add].
    destruct (run env (S (S n)) (start_provisioning g)). reflexivity.
  - reflexivity.
Qed.

Lemma never_blocks_nvs : never_blocks app_main_nvs.
Proof.
  intros env n g.
  destruct (run_app_main_nvs env n g) as [o [tr [E [_ [Ho | Ho]]]]];
    rewrite E, Ho; discriminate.
Qed.

Lemma never_blocks_init : never_blocks app_main_init.
Proof.
  intros env n g.
  destruct (run_app_main_init env n g)
    as [o [tr [E [_ [Ho | [g' [Ho _]]]]]]]; rewrite E, Ho; discriminate.
Qed.

Lemma never_blocks_check : never_blocks app_main_check.
Proof.
  intros env n g. rewrite run_app_main_check, run_start_provisioning.
  cbv zeta. destruct (negb _ || negb _); [|discriminate].
  split_replies; discriminate.
Qed.

Lemma boot_blocks (env : Env) :
  boot env
  = exec env (exec env (exec env power_on app_main_nvs) app_main_init)
      app_main_check.
Proof.
  unfold boot, app_main_setup.
  rewrite exec_seq;
    [| apply never_blocks_nvs
     | apply never_blocks_seq;
       [apply never_blocks_init | apply never_blocks_check]].
  apply exec_seq; [apply never_blocks_init | apply never_blocks_check].
Qed.

Lemma exec_run (env : Env) (d : Device) (m : M unit)
    (o : Outcome (unit * Globals)) (tr : list Event) :
  halted d = false ->
  run env (List.length (trace d)) (m (globals d)) = (o, tr) ->
  exec env d m
  = match o with
    | Done (_, g) =>
        {| globals := g; trace := (trace d ++ tr)%list; halted := false |}
    | Aborted =>
        {| globals := globals_init; trace := (trace d ++ tr)%list;
           halted := true |}
    | Blocked =>
        {| globals := globals d; trace := (trace d ++ tr)%list;
           halted := false |}
    end.
Proof. intros Hh Hrun. unfold exec. rewrite Hh, Hrun. reflexivity. Qed.

(** What one turn of the button task adds, when an identifier waits. *)
Lemma turn_facts (env : Env) (n : nat) (g : Globals) (q : Queue) (io : Z)
    (rest : list Z) :
  button_queue g = Some q -> q_items q = io :: rest ->
  exists o tr,
    run env n (button_task_body g) = (o, tr)
    /\ samples tr = 1%nat
    /\ triggers tr = pressed_samples tr
    /\ (o = Aborted \/ o = Done (tt, taken g q rest))
    /\ (forall p, p = Checked \/ p = Running ->
          phase_from p (calls tr) <> Violation
          /\ (o <> Aborted ->
              phase_from p (calls tr) = Checked
              \/ phase_from p (calls tr) = Running)).
Proof.
  intros Hq Hitems.
  rewrite (run_button_task_body env n g q io rest Hq Hitems),
    run_start_provisioning.
  cbv zeta. unfold press_prefix. cbn [Nat.add app].
  destruct (ret (env (S n) (gpio_get_level io)) =? 0)%Z eqn:Hlvl;
    [|split_replies];
    do 2 eexists; (split; [reflexivity|]);
    (split; [reflexivity|]);
    (split; [unfold triggers, pressed_samples, is_pressed_sample; cbn;
             rewrite Hlvl; reflexivity|]);
    (split; [auto|]);
    intros p [Hp | Hp]; subst p; cbn; (split; [discriminate|]);
    intros Ho; auto; congruence.
Qed.

Lemma sound_quiet (env : Env) (d : Device) (m : M unit) (n : nat)
    (tr : list Event) :
  halted d = false ->
  run env (List.length (trace d)) (m (globals d))
  = (Done (tt, globals d), tr) ->
  Quiet tr -> sound d n -> sound (exec env d m) n.
Proof.
  intros Hh Hrun Hquiet [[Hv Hp] [Ht [Hs Hqo]]].
  rewrite (exec_run env d m _ tr Hh Hrun).
  unfold sound, phase_ok, phase_of in *. cbn [trace globals halted].
  rewrite calls_app, phase_from_app, (Quiet_phase tr _ Hquiet),
    triggers_app, pressed_samples_app, samples_app,
    (Quiet_triggers tr Hquiet), (Quiet_pressed_samples tr Hquiet),
    (Quiet_samples tr Hquiet), !Nat.add_0_r.
  auto.
Qed.

Lemma sound_edge (env : Env) (d : Device) (n : nat) :
  sound d n -> sound (step env d ButtonEdge) (S n).
Proof.
  intros Hsound. unfold step, handler_of.
  destruct (halted d) eqn:Hh.
  { rewrite exec_halted by exact Hh.
    destruct Hsound as [Hp [Ht [Hs Hqo]]].
    repeat split; try apply Hp; auto; try lia. }
  destruct Hsound as [[Hv Hp] [Ht [Hs Hqo]]].
  unfold queue_ok, pending in *.
  destruct (button_queue (globals d)) as [q|] eqn:Hq.
  - destruct (queue_full q) eqn:Hfull.
    + rewrite (exec_run env d _ (Done (tt, globals d)) [] Hh)
        by (rewrite (button_isr_handler_full _ q _ Hq Hfull); reflexivity).
      unfold sound, phase_ok, queue_ok, pending.
      cbn [trace globals halted]. rewrite app_nil_r, Hq.
      repeat split; auto; try lia.
    + rewrite (exec_run env d _ (Done (tt, added (globals d) q BUTTON_GPIO))
                 [] Hh)
        by (rewrite (button_isr_handler_room _ q _ Hq Hfull); reflexivity).
      unfold sound, phase_ok, queue_ok, pending.
      cbn [trace globals halted added button_queue q_items q_length].
      rewrite app_nil_r, length_app. cbn [List.length].
      unfold queue_full in Hfull. apply Nat.leb_gt in Hfull.
      destruct Hqo as [Hlen Hitems].
      repeat split; auto; lia.
  - rewrite (exec_run env d _ Aborted [] Hh)
      by (rewrite (button_isr_handler_null _ _ Hq); reflexivity).
    unfold sound, phase_ok, queue_ok, pending.
    cbn [trace globals halted globals_init button_queue].
    rewrite app_nil_r.
    repeat split; auto; try discriminate; cbn; try lia.
Qed.

Lemma sound_turn (env : Env) (d : Device) (n : nat) :
  sound d n -> sound (step env d ButtonTaskTurn) n.
Proof.
  intros Hsound. unfold step, handler_of.
  destruct (halted d) eqn:Hh.
  { rewrite exec_halted by exact Hh. exact Hsound. }
  destruct Hsound as [[Hv Hp] [Ht [Hs Hqo]]].
  specialize (Hp Hh).
  unfold queue_ok, pending in *.
  destruct (button_queue (globals d)) as [q|] eqn:Hq.
  - destruct (q_items q) as [|io rest] eqn:Hitems.
    + rewrite (exec_run env d _ Blocked [] Hh)
        by (apply (run_button_task_body_empty _ _ _ q); assumption).
      unfold sound, phase_ok, queue_ok, pending.
      cbn [trace globals halted]. rewrite app_nil_r, Hq, Hitems.
      repeat split; auto; apply Hqo.
    + destruct (turn_facts env (List.length (trace d)) (globals d) q io rest
                  Hq Hitems)
        as [o [tr [Hrun [Hsam [Htrig [Ho Hphase]]]]]].
      destruct (Hphase _ Hp) as [Hnv Hnext].
      rewrite (exec_run env d _ o tr Hh Hrun).
      destruct Hqo as [Hlen Hcap]. cbn [List.length] in *.
      destruct Ho as [Ho | Ho]; subst o;
        unfold sound, phase_ok, phase_of, queue_ok, pending in *;
        cbn [trace globals halted globals_init taken button_queue
             q_items q_length];
        rewrite calls_app, phase_from_app, triggers_app,
          pressed_samples_app, samples_app, Hsam, Htrig, Ht.
      * repeat split; auto; try discriminate; cbn; try lia.
      * repeat split; auto; try lia. intros _. apply Hnext. discriminate.
  - rewrite (exec_run env d _ Aborted [] Hh)
      by (apply run_button_task_body_null; exact Hq).
    unfold sound, phase_ok, queue_ok, pending.
    cbn [trace globals halted globals_init button_queue].
    rewrite app_nil_r.
    repeat split; auto; try discriminate.
Qed.

Lemma sound_step (env : Env) (d : Device) (i : Input) (n : nat) :
  sound d n ->
  sound (step env d i) (if is_edge i then S n else n).
Proof.
  intros Hsound. destruct i as [| |b id data|]; cbn [is_edge].
  - apply sound_edge, Hsound.
  - apply sound_turn, Hsound.
  - unfold step, handler_of. destruct (halted d) eqn:Hh.
    + rewrite exec_halted by exact Hh. exact Hsound.
    + destruct (run_event_handler env (List.length (trace d)) (globals d)
                  b id data) as [tr [Hrun Hquiet]].
      apply (sound_quiet env d _ n tr Hh Hrun Hquiet Hsound).
  - unfold step, handler_of. destruct (halted d) eqn:Hh.
    + rewrite exec_halted by exact Hh. exact Hsound.
    + destruct (run_app_main_idle env (List.length (trace d)) (globals d))
        as [tr [Hrun Hquiet]].
      apply (sound_quiet env d _ n tr Hh Hrun Hquiet Hsound).
Qed.

Lemma boot_before_check (env : Env) :
  let d := exec env (exec env power_on app_main_nvs) app_main_init in
  Quiet (trace d) /\ pending (globals d) = [] /\ queue_ok (globals d).
Proof.
  cbv zeta.
  destruct (run_app_main_nvs env 0 globals_init)
    as [o1 [tr1 [Hrun1 [Hquiet1 Ho1]]]].
  rewrite (exec_run env power_on _ o1 tr1 eq_refl Hrun1).
  cbn [trace power_on app].
  destruct Ho1 as [Ho1 | Ho1]; subst o1.
  - rewrite exec_halted by reflexivity. cbn. auto.
  - destruct (run_app_main_init env (List.length tr1) globals_init)
      as [o2 [tr2 [Hrun2 [Hquiet2 Ho2]]]].
    rewrite (exec_run env {| globals := globals_init; trace := tr1;
                             halted := false |} _ o2 tr2 eq_refl Hrun2).
    cbn [trace globals].
    destruct Ho2 as [Ho2 | [g' [Ho2 Hq]]]; subst o2;
      cbn [trace globals]; (split; [apply Quiet_app; assumption|]).
    + cbn. auto.
    + unfold pending, queue_ok.
      destruct Hq as [Hq | Hq]; rewrite Hq; cbn; auto.
      repeat split; auto. unfold BUTTON_QUEUE_LENGTH. lia.
Qed.

Lemma check_facts (env : Env) (n : nat) (g : Globals) :
  exists o tr,
    run env n (app_main_check g) = (o, tr)
    /\ samples tr = 0%nat /\ triggers tr = 0%nat
    /\ pressed_samples tr = 0%nat
    /\ (o = Aborted \/ o = Done (tt, g))
    /\ phase_from PowerOn (calls tr) <> Violation
    /\ (o <> Aborted ->
        phase_from PowerOn (calls tr) = Checked
        \/ phase_from PowerOn (calls tr) = Running).
Proof.
  rewrite run_app_main_check, run_start_provisioning. cbv zeta.
  cbn [Nat.add].
  destruct (negb _ || negb _); [split_replies|];
    do 2 eexists; (split; [reflexivity|]);
    repeat (split; [reflexivity|]);
    (split; [auto|]); (split; [discriminate|]);
    intros Ho; auto; congruence.
Qed.

Lemma boot_sound (env : Env) : sound (boot env) 0.
Proof.
  rewrite boot_blocks.
  destruct (boot_before_check env) as [Hquiet [Hpend Hqo]].
  set (d := exec env (exec env power_on app_main_nvs) app_main_init) in *.
  destruct (halted d) eqn:Hh.
  - rewrite exec_halted by exact Hh.
    unfold sound, phase_ok, phase_of.
    rewrite (Quiet_phase _ _ Hquiet), (Quiet_triggers _ Hquiet),
      (Quiet_pressed_samples _ Hquiet), (Quiet_samples _ Hquiet), Hpend.
    repeat split; auto; try discriminate. congruence.
  - destruct (check_facts env (List.length (trace d)) (globals d))
      as [o [tr [Hrun [Hs [Ht [Hps [Ho [Hnv Hnext]]]]]]]].
    rewrite (exec_run env d _ o tr Hh Hrun).
    destruct Ho as [Ho | Ho]; subst o;
      unfold sound, phase_ok, phase_of;
      cbn [trace globals halted];
      rewrite calls_app, phase_from_app, (Quiet_phase _ _ Hquiet),
        triggers_app, pressed_samples_app, samples_app,
        (Quiet_triggers _ Hquiet), (Quiet_pressed_samples _ Hquiet),
        (Quiet_samples _ Hquiet), Hs, Ht, Hps.
    + repeat split; auto; try discriminate.
    + rewrite Hpend. repeat split; auto. intros _. apply Hnext. discriminate.
Qed.

Lemma device_snoc (env : Env) (inputs : list Input) (i : Input) :
  device env (inputs ++ [i]) = step env (device env inputs) i.
Proof. unfold device. rewrite fold_left_app. reflexivity. Qed.

Lemma edges_snoc (inputs : list Input) (i : Input) :
  edges (inputs ++ [i])
  = if is_edge i then S (edges inputs) else edges inputs.
Proof.
  unfold edges. rewrite filter_app, length_app. cbn.
  destruct (is_edge i); cbn; lia.
Qed.

Lemma device_sound (env : Env) (inputs : list Input) :
  sound (device env inputs) (edges inputs).
Proof.
  induction inputs as [|i inputs IH] using rev_ind.
  - apply boot_sound.
  - rewrite device_snoc, edges_snoc. apply sound_step, IH.
Qed.

(** ** Lifecycle *)

Lemma phase_from_violation (cs : list Call) :
  phase_from Violation cs = Violation.
Proof.
  induction cs as [|c cs IH]; [reflexivity|].
  unfold phase_from in *. cbn. destruct c; exact IH.
Qed.

Lemma start_needs_initialised (before after : list Call) (c : Call) :
  phase_of (before ++ c :: after) <> Violation ->
  is_start_call c = true ->
  phase_of before = Initialised.
Proof.
  unfold phase_of. rewrite phase_from_app. intros Hnv Hstart.
  destruct c; try discriminate Hstart.
  unfold phase_from at 1 in Hnv. cbn [fold_left] in Hnv.
  fold (phase_from (phase_step (phase_from PowerOn before)
          (wifi_prov_mgr_start_provisioning security pop0 service_name0))
          after) in Hnv.
  destruct (phase_from PowerOn before); cbn in Hnv;
    try (rewrite phase_from_violation in Hnv; congruence).
  reflexivity.
Qed.

Lemma phase_of_snoc (cs : list Call) (c : Call) :
  phase_of (cs ++ [c]) = phase_step (phase_of cs) c.
Proof. unfold phase_of. rewrite phase_from_app. reflexivity. Qed.

Lemma session_active_snoc (cs : list Call) (c : Call) :
  session_active (cs ++ [c]) = session_step (session_active cs) c.
Proof. unfold session_active. rewrite fold_left_app. reflexivity. Qed.

Lemma prov_calls_snoc (cs : list Call) (c : Call) :
  prov_calls (cs ++ [c])
  = (prov_calls cs ++ (if is_prov_mgr_call c then [c] else []))%list.
Proof. unfold prov_calls. rewrite filter_app. reflexivity. Qed.

(** What the phase tells about the calls made so far. *)
Lemma phase_shape (cs : list Call) :
  match phase_of cs with
  | PowerOn => prov_calls cs = [] /\ session_active cs = false
  | Checked =>
      prov_calls cs = [wifi_prov_mgr_is_provisioned]
      /\ session_active cs = false
  | Initialised =>
      (prov_calls cs = [wifi_prov_mgr_is_provisioned; wifi_prov_mgr_init]
       \/ exists earlier,
            prov_calls cs
            = (earlier ++ [wifi_prov_mgr_stop_provisioning;
                           wifi_prov_mgr_reset_provisioning;
                           wifi_prov_mgr_deinit; wifi_prov_mgr_init])%list)
      /\ session_active cs = false
  | Running => session_active cs = true
  | Stopped =>
      (exists earlier,
          prov_calls cs
          = (earlier ++ [wifi_prov_mgr_stop_provisioning])%list)
      /\ session_active cs = false
  | ResetDone =>
      (exists earlier,
          prov_calls cs
          = (earlier ++ [wifi_prov_mgr_stop_provisioning;
                         wifi_prov_mgr_reset_provisioning])%list)
      /\ session_active cs = false
  | TornDown =>
      (exists earlier,
          prov_calls cs
          = (earlier ++ [wifi_prov_mgr_stop_provisioning;
                         wifi_prov_mgr_reset_provisioning;
                         wifi_prov_mgr_deinit])%list)
      /\ session_active cs = false
  | Violation => True
  end.
Proof.
  induction cs as [|c cs IH] using rev_ind; [split; reflexivity|].
  rewrite phase_of_snoc, session_active_snoc, prov_calls_snoc.
  destruct (is_prov_mgr_call c) eqn:Hprov.
  - destruct (phase_of cs); destruct c; try discriminate Hprov;
      cbn [phase_step session_step]; try exact I.
    + destruct IH as [IH Hs]. rewrite IH. split; [reflexivity | exact Hs].
    + destruct IH as [IH Hs]. rewrite IH. split; [left; reflexivity|exact Hs].
    + split; [eexists; reflexivity | reflexivity].
    + reflexivity.
    + split; [eexists; reflexivity | reflexivity].
    + destruct IH as [[earlier IH] Hs]. rewrite IH. split; [|exact Hs].
      exists earlier. rewrite <- app_assoc. reflexivity.
    + destruct IH as [[earlier IH] Hs]. rewrite IH. split; [|reflexivity].
      exists earlier. rewrite <- app_assoc. reflexivity.
    + destruct IH as [[earlier IH] Hs]. rewrite IH. split; [|exact Hs].
      right. exists earlier. rewrite <- app_assoc. reflexivity.
  - rewrite app_nil_r, (phase_step_other _ _ Hprov),
      (session_step_other _ _ Hprov). exact IH.
Qed.

(** ** Button *)

Lemma pressed_samples_le (tr : list Event) :
  (pressed_samples tr <= samples tr)%nat.
Proof.
  unfold pressed_samples, samples, is_pressed_sample.
  induction tr as [|e tr IH]; [cbn; lia|].
  cbn. destruct (is_sample e); cbn; [|exact IH].
  destruct (negb _); cbn; lia.
Qed.

Lemma turn_settles (env : Env) (n : nat) (g : Globals) (q : Queue) (io : Z)
    (rest : list Z) :
  button_queue g = Some q -> q_items q = io :: rest ->
  exists o r_delay r_level tail,
    run env n (button_task_body g)
    = (o, (vTaskDelay (pdMS_TO_TICKS DEBOUNCE_MS), r_delay)
          :: (gpio_get_level io, r_level) :: tail)
    /\ samples tail = 0%nat
    /\ filter is_settle_delay tail = []
    /\ triggers tail = (if (ret r_level =? 0)%Z then 0 else 1)%nat
    /\ ((ret r_level =? 0)%Z = true -> tail = [])
    /\ ((ret r_level =? 0)%Z = false ->
        exists r_log r_init,
          hd_error tail = Some (ESP_LOGI "Triggering reprovisioning" [], r_log)
          /\ In (wifi_prov_mgr_init, r_init) tail
          /\ sequence_calls tail
             = ([esp_wifi_disconnect; wifi_prov_mgr_stop_provisioning;
                 wifi_prov_mgr_reset_provisioning; wifi_prov_mgr_deinit;
                 wifi_prov_mgr_init]
                ++ (if (ret r_init =? ESP_OK)%Z then [start_call g]
                    else []))%list)
    /\ (o = Aborted \/ exists g', o = Done (tt, g') /\ pending g' = rest).
Proof.
  intros Hq Hitems.
  rewrite (run_button_task_body env n g q io rest Hq Hitems),
    run_start_provisioning.
  cbv zeta. unfold press_prefix. cbn [Nat.add app].
  destruct (ret (env (S n) (gpio_get_level io)) =? 0)%Z eqn:Hlvl.
  - do 4 eexists. split; [reflexivity|]. rewrite Hlvl.
    repeat split; try discriminate. right. eexists. split; reflexivity.
  - destruct (ret (env (S (S (S (S (S (S (S n))))))) wifi_prov_mgr_init)
              =? ESP_OK)%Z eqn:Hinit;
      [destruct (ret (env (S (S (S (S (S (S (S (S n))))))))
                        (start_call (taken g q rest))) =? ESP_OK)%Z|];
      do 4 eexists; (split; [reflexivity|]); rewrite Hlvl;
      (split; [reflexivity|]); (split; [reflexivity|]);
      (split; [reflexivity|]); (split; [discriminate|]);
      (split;
       [intros _; do 2 eexists; (split; [reflexivity|]);
        (split; [cbn; tauto|]); rewrite Hinit; reflexivity|]);
      try (left; reflexivity);
      right; eexists; split; reflexivity.
Qed.

Lemma edge_on_full_queue (env : Env) (d : Device) (q : Queue) :
  button_queue (globals d) = Some q -> queue_full q = true ->
  step env d ButtonEdge = d.
Proof.
  intros Hq Hfull. destruct d as [g tr h]. cbn in Hq.
  unfold step, exec, handler_of. cbn [halted globals trace].
  destruct h; [reflexivity|].
  rewrite (button_isr_handler_full g q _ Hq Hfull). cbn.
  rewrite app_nil_r. reflexivity.
Qed.

Lemma prov_calls_of_sequence (tr : list Event) :
  prov_calls (calls tr) = prov_calls (sequence_calls tr).
Proof.
  unfold prov_calls, sequence_calls.
  induction (calls tr) as [|c cs IH]; [reflexivity|].
  cbn [filter]. destruct (is_sequence_call c) eqn:Hseq.
  - cbn [filter]. rewrite IH. reflexivity.
  - rewrite (is_sequence_call_prov c Hseq). exact IH.
Qed.

(** ** Boot *)


Lemma nvs_recovers (env : Env) (n : nat) (g : Globals) :
  ret (env n nvs_flash_init) = ESP_ERR_NVS_NO_FREE_PAGES
  \/ ret (env n nvs_flash_init) = ESP_ERR_NVS_NEW_VERSION_FOUND ->
  run env n (app_main_nvs g)
  = let first := (nvs_flash_init, env n nvs_flash_init) in
    let erase := (nvs_flash_erase, env (1 + n)%nat nvs_flash_erase) in
    let again := (nvs_flash_init, env (2 + n)%nat nvs_flash_init) in
    if (ret (snd erase) =? ESP_OK)%Z then
      if (ret (snd again) =? ESP_OK)%Z
      then (Done (tt, g), [first; erase; again])
      else (Aborted, [first; erase; again])
    else (Aborted, [first; erase]).
Proof.
  intros Hcode. cbv zeta. cbn [snd Nat.add].
  unfold app_main_nvs, ESP_ERROR_CHECK, mbind, call, mret, abort.
  cbn [pbind run].
  assert (Htest : (ret (env n nvs_flash_init) =? ESP_ERR_NVS_NO_FREE_PAGES)%Z
                  || (ret (env n nvs_flash_init)
                      =? ESP_ERR_NVS_NEW_VERSION_FOUND)%Z = true).
  { destruct Hcode as [-> | ->]; reflexivity. }
  rewrite Htest. cbn [pbind run].
  destruct (ret (env (S n) nvs_flash_erase) =? ESP_OK)%Z; cbn [pbind run];
    [|reflexivity].
  destruct (ret (env (S (S n)) nvs_flash_init) =? ESP_OK)%Z; reflexivity.
Qed.

Lemma nvs_other_failure_ignored (env : Env) (n : nat) (g : Globals) :
  ret (env n nvs_flash_init) <> ESP_ERR_NVS_NO_FREE_PAGES ->
  ret (env n nvs_flash_init) <> ESP_ERR_NVS_NEW_VERSION_FOUND ->
  run env n (app_main_nvs g)
  = (Done (tt, g), [(nvs_flash_init, env n nvs_flash_init)]).
Proof.
  intros H1 H2. apply Z.eqb_neq in H1, H2.
  unfold app_main_nvs, ESP_ERROR_CHECK, mbind, call, mret, abort.
  cbn [pbind run]. rewrite H1, H2. reflexivity.
Qed.

(** A run of [k] edges on a queue that holds [j] identifiers. *)
Lemma edges_queue_up (env : Env) (k : nat) :
  forall (d : Device) (j : nat),
    halted d = false ->
    button_queue (globals d)
    = Some {| q_length := BUTTON_QUEUE_LENGTH;
              q_items := repeat BUTTON_GPIO j |} ->
    (j <= BUTTON_QUEUE_LENGTH)%nat ->
    halted (fold_left (step env) (repeat ButtonEdge k) d) = false
    /\ trace (fold_left (step env) (repeat ButtonEdge k) d) = trace d
    /\ button_queue (globals (fold_left (step env) (repeat ButtonEdge k) d))
       = Some {| q_length := BUTTON_QUEUE_LENGTH;
                 q_items :=
                   repeat BUTTON_GPIO (Nat.min (j + k) BUTTON_QUEUE_LENGTH) |}.
Proof.
  induction k as [|k IH]; intros d j Hh Hq Hj.
  - cbn [repeat fold_left]. rewrite Nat.add_0_r, Nat.min_l by exact Hj. auto.
  - cbn [repeat fold_left].
    destruct (Nat.eq_dec j BUTTON_QUEUE_LENGTH) as [Hfull | Hroom].
    + rewrite (edge_on_full_queue env d _ Hq)
        by (unfold queue_full; cbn [q_length q_items];
            rewrite repeat_length; apply Nat.leb_le; lia).
      destruct (IH d j Hh Hq Hj) as [Hh' [Ht' Hq']].
      rewrite Hh', Ht', Hq'. repeat split.
      rewrite !Nat.min_r by lia. reflexivity.
    + assert (Hstep : step env d ButtonEdge
                      = {| globals :=
                             added (globals d)
                               {| q_length := BUTTON_QUEUE_LENGTH;
                                  q_items := repeat BUTTON_GPIO j |}
                               BUTTON_GPIO;
                           trace := trace d; halted := false |}).
      { unfold step, handler_of.
        rewrite (exec_run env d _
                   (Done (tt, added (globals d)
                                {| q_length := BUTTON_QUEUE_LENGTH;
                                   q_items := repeat BUTTON_GPIO j |}
                                BUTTON_GPIO)) [] Hh).
        - rewrite app_nil_r. reflexivity.
        - rewrite (button_isr_handler_room _ _ _ Hq); [reflexivity|].
          unfold queue_full. cbn [q_length q_items].
          rewrite repeat_length. apply Nat.leb_gt. lia. }
      rewrite Hstep. clear Hstep.
      set (d1 := {| globals := _; trace := trace d; halted := false |}).
      assert (Hq1 : button_queue (globals d1)
                    = Some {| q_length := BUTTON_QUEUE_LENGTH;
                              q_items := repeat BUTTON_GPIO (S j) |}).
      { cbn. rewrite <- repeat_cons. reflexivity. }
      destruct (IH d1 (S j) eq_refl Hq1) as [Hh' [Ht' Hq']]; [lia|].
      rewrite Hh', Ht', Hq'. repeat split.
      rewrite Nat.add_succ_r. reflexivity.
Qed.


(** ** Case analysis on the device *)

Lemma snprintf_service_name (mac : list byte) :
  snprintf SERVICE_NAME_SIZE (service_name_text mac) = service_name_text mac.
Proof. reflexivity. Qed.

(** Full case analysis of a boot. *)
Ltac boot_cases :=
  unfold boot, exec, power_on, app_main_setup, app_main_nvs, app_main_init,
    app_main_check, start_provisioning, get_device_service_name,
    ESP_ERROR_CHECK, mbind, call, gets, mret, abort, modify;
  cbn -[Z.eqb service_name_text qr_payload snprintf];
  repeat (match goal with
          | |- context [if ?b then _ else _] =>
              let E := fresh "E" in destruct b eqn:E
          end; cbn -[Z.eqb service_name_text qr_payload snprintf]);
  rewrite ?snprintf_service_name in *.

Ltac find_event H :=
  cbn [In] in H;
  repeat (destruct H as [H | H]; [try discriminate H|]);
  try contradiction.

Lemma device_invariant (env : Env) (P : Device -> Prop) :
  P (boot env) ->
  (forall d i, P d -> P (step env d i)) ->
  forall inputs, P (device env inputs).
Proof.
  intros Hboot Hstep inputs.
  induction inputs as [|i inputs IH] using rev_ind; [exact Hboot|].
  rewrite device_snoc. apply Hstep, IH.
Qed.

Lemma count_call_app (f : Call) (a b : list Event) :
  count_call f (a ++ b) = (count_call f a + count_call f b)%nat.
Proof. unfold count_call. rewrite calls_app. apply count_occ_app. Qed.

(** Full case analysis of one input on a device that runs. *)
Ltac step_cases d i Hh :=
  unfold step, exec; rewrite Hh;
  destruct i; unfold handler_of;
  [ unfold button_isr_handler, xQueueSendFromISR, mbind, mret
  | unfold button_task_body, xQueueReceive_portMAX_DELAY, stop_provisioning,
      start_provisioning, ESP_ERROR_CHECK, mbind, call, gets, mret, abort
  | match goal with
    | |- context [event_handler ?b ?id _] =>
        unfold event_handler, mbind, call, mret;
        destruct b; cbn [event_base_is andb];
        repeat match goal with
               | |- context [(id =? ?v)%Z] => destruct (id =? v)%Z
               | |- context [String.eqb ?x ?y] => destruct (String.eqb x y)
               end
    end
  | unfold app_main_idle, mbind, call, mret ];
  cbn -[Z.eqb qr_payload Nat.add count_call triggers samples
        pressed_samples calls sequence_calls prov_calls];
  repeat (match goal with
          | |- context [match button_queue ?g with _ => _ end] =>
              let E := fresh "Eq" in destruct (button_queue g) eqn:E
          | |- context [match q_items ?q with _ => _ end] =>
              let E := fresh "Ei" in destruct (q_items q) eqn:E
          | |- context [if ?b then _ else _] =>
              let E := fresh "E" in destruct b eqn:E
          end;
          cbn -[Z.eqb qr_payload Nat.add count_call triggers samples
                pressed_samples calls sequence_calls prov_calls]).

Lemma payload_text_reads_back_name (mac : list byte) :
  Json.parse_object (qr_payload (service_name_text mac))
  = Some (payload_fields (service_name_text mac)).
Proof.
  unfold qr_payload. rewrite snprintf_fits.
  - apply payload_text_reads_back, service_name_text_plain.
  - rewrite payload_text_length, service_name_text_length.
    unfold PAYLOAD_SIZE. lia.
Qed.

(** The service name on the device: one name, made from the MAC address
    that was read, is what every start call and every payload carries. *)
Lemma device_names (env : Env) (inputs : list Input) :
  exists name,
    (exists mac, name = service_name_text mac)
    /\ Forall (carries name) (calls (trace (device env inputs)))
    /\ (forall r, In (esp_wifi_get_mac, r) (trace (device env inputs)) ->
          name = service_name_text (reply_mac r))
    /\ (count_call esp_wifi_get_mac (trace (device env inputs)) <= 1)%nat
    /\ (halted (device env inputs) = false ->
        service_name (globals (device env inputs)) = name).
Proof.
  apply device_invariant.
  - boot_cases;
      lazymatch goal with
      | |- context [(esp_wifi_get_mac, ?r)] =>
          exists (service_name_text (reply_mac r))
      | |- _ => exists (service_name_text [])
      end;
      (split; [eexists; reflexivity|]);
      (split; [cbn; repeat constructor|]);
      (split; [intros r Hin; find_event Hin; try discriminate Hin;
               injection Hin as <-; reflexivity|]);
      (split; [cbn; lia|]);
      intros Hh; first [discriminate Hh | reflexivity].
  - intros d i [name [Hmac [Hall [Hread [Hcount Hname]]]]].
    exists name. split; [exact Hmac|].
    destruct (halted d) eqn:Hh.
    { unfold step. rewrite exec_halted by exact Hh. rewrite Hh. auto. }
    specialize (Hname eq_refl).
    step_cases d i Hh;
      rewrite ?app_nil_r, ?count_call_app, ?calls_app;
      (split; [first [assumption
                     | apply Forall_app; split; [exact Hall|];
                       cbn; rewrite ?Hname; repeat constructor]|]);
      (split; [first [assumption
                     | intros r Hin; apply in_app_or in Hin;
                       destruct Hin as [Hin | Hin]; [apply Hread, Hin|];
                       find_event Hin]|]);
      (split; [first [assumption | cbn; lia]|]);
      intros Hh'; first [discriminate Hh' | cbn; assumption].
Qed.

(** As long as the button task takes no turn before [app_main] is through
    lines 157-165 (the inputs of [device] follow the whole boot), every
    start call finds no session active: whatever the environment answers
    and whatever inputs follow, the calls into the provisioning manager
    before a start call are either the boot-time query and init, or end
    with stop, reset, deinit, init. *)
Lemma start_never_overlaps (env : Env) (inputs : list Input)
    (before after : list Call) (c : Call) :
  calls (trace (device env inputs)) = (before ++ c :: after)%list ->
  is_start_call c = true ->
  session_active before = false
  /\ (prov_calls before
      = [wifi_prov_mgr_is_provisioned; wifi_prov_mgr_init]
      \/ exists earlier,
           prov_calls before
           = (earlier ++ [wifi_prov_mgr_stop_provisioning;
                          wifi_prov_mgr_reset_provisioning;
                          wifi_prov_mgr_deinit; wifi_prov_mgr_init])%list).
Proof.
  intros Hcalls Hstart.
  destruct (device_sound env inputs) as [[Hnv _] _].
  rewrite Hcalls in Hnv.
  pose proof (start_needs_initialised before after c Hnv Hstart) as Hinit.
  pose proof (phase_shape before) as Hshape.
  rewrite Hinit in Hshape. destruct Hshape as [Hcalls' Hsession].
  split; assumption.
Qed.

(** The edges on the button and what becomes of them.  After any inputs:
    every sample of the pin that read pressed was logged as a trigger and
    there is no other such log; every sample used up one edge that was
    queued; and at most 5 identifiers wait in the queue.  Edges are queued
    one by one: [k] edges that arrive while the queue is empty leave
    [min k 5] identifiers waiting, and each of them gets its own settle
    delay and sample. *)
Lemma triggers_follow_samples (env : Env) (inputs : list Input) :
  triggers (trace (device env inputs))
  = pressed_samples (trace (device env inputs))
  /\ (pressed_samples (trace (device env inputs))
      <= samples (trace (device env inputs)))%nat
  /\ (samples (trace (device env inputs))
      + List.length (pending (globals (device env inputs)))
      <= edges inputs)%nat
  /\ (List.length (pending (globals (device env inputs)))
      <= BUTTON_QUEUE_LENGTH)%nat
  /\ (forall k,
        halted (device env inputs) = false ->
        button_queue (globals (device env inputs))
        = Some {| q_length := BUTTON_QUEUE_LENGTH; q_items := [] |} ->
        pending (globals (device env (inputs ++ repeat ButtonEdge k)))
        = repeat BUTTON_GPIO (Nat.min k BUTTON_QUEUE_LENGTH)).
Proof.
  destruct (device_sound env inputs) as [_ [Ht [Hs Hq]]].
  repeat split; try assumption.
  - apply pressed_samples_le.
  - unfold queue_ok, pending in *.
    destruct (button_queue (globals (device env inputs))) as [q|];
      [apply Hq | cbn; lia].
  - intros k Hh Hempty. unfold device. rewrite fold_left_app.
    fold (device env inputs).
    destruct (edges_queue_up env k (device env inputs) 0 Hh Hempty)
      as [_ [_ Hqueue]]; [unfold BUTTON_QUEUE_LENGTH; lia|].
    unfold pending. rewrite Hqueue. reflexivity.
Qed.

(** ** The boot, preempted *)

(** Once the firmware has aborted, no slot changes anything. *)
Lemma slots_halted (env : Env) (slots : list Slot) (t : Tasks) :
  halted (shared t) = true -> fold_left (slot_step env) slots t = t.
Proof.
  intros Hh. induction slots as [|s slots IH]; [reflexivity|].
  cbn [fold_left]. unfold slot_step at 2. rewrite Hh. exact IH.
Qed.

Lemma main_call_do (env : Env) (d : Device) (c : Call)
    (k : Reply -> Prog (unit * Globals))
    (b : option (Prog (unit * Globals))) :
  halted d = false ->
  slot_step env {| shared := d; main_rest := Do c k; button_rest := b |}
    MainCall
  = {| shared := fst (make_call env d c k);
       main_rest := snd (make_call env d c k); button_rest := b |}.
Proof. intros Hh. unfold slot_step. cbn. rewrite Hh. reflexivity. Qed.

Lemma main_call_ret (env : Env) (d : Device) (a : unit * Globals)
    (b : option (Prog (unit * Globals))) :
  slot_step env {| shared := d; main_rest := Ret a; button_rest := b |}
    MainCall
  = {| shared := d; main_rest := Ret a; button_rest := b |}.
Proof. unfold slot_step. cbn. destruct (halted d); reflexivity. Qed.

Lemma slot_halted (env : Env) (t : Tasks) (s : Slot) :
  halted (shared t) = true -> slot_step env t s = t.
Proof. intros Hh. unfold slot_step. rewrite Hh. reflexivity. Qed.

Ltac flat_trace :=
  rewrite <- ?app_assoc; cbn [app];
  rewrite ?length_app; cbn [List.length];
  rewrite ?Nat.add_succ_r, ?Nat.add_0_r.

(** When [app_main] makes its calls of lines 157-165 (six at most) with
    nothing in between, the interleaved tasks end where the boot of
    [device] ends, in every environment. *)
Lemma unpreempted_boot (env : Env) :
  shared (schedule env (repeat MainCall 6)) = boot env.
Proof.
  rewrite boot_blocks. unfold schedule, tasks_at_line_154, boot_to_line_154.
  set (d := exec env (exec env power_on app_main_nvs) app_main_init).
  destruct (halted d) eqn:Hh.
  { rewrite exec_halted by exact Hh.
    rewrite slots_halted by exact Hh. reflexivity. }
  unfold exec at 1. rewrite Hh.
  destruct d as [g tr h]. cbn [halted globals trace] in *. subst h.
  unfold app_main_check, start_provisioning, ESP_ERROR_CHECK, mbind, call,
    gets, mret, abort.
  cbn -[Z.eqb qr_payload slot_step].
  repeat first
    [ rewrite main_call_do by reflexivity;
      unfold make_call; cbn -[Z.eqb qr_payload slot_step]; flat_trace
    | rewrite main_call_ret
    | rewrite slot_halted by reflexivity
    | match goal with
      | |- context [if (?a =? ?b)%Z then _ else _] =>
          let E := fresh "E" in destruct (a =? b)%Z eqn:E
      | |- context [if negb ?a || negb ?b then _ else _] =>
          let E := fresh "E" in destruct (negb a || negb b) eqn:E
      end; cbn -[Z.eqb qr_payload slot_step] ].
  all: reflexivity.
Qed.

(** * The claims *)

(** C1, on the code.  The button is pressed during the boot.  The edge
    arrives once the interrupt handler is registered (line 154); the button
    task takes the identifier and waits its settle delay while [app_main]
    makes the boot-time query, finds no credentials, and calls init (lines
    158-160, 73); the button task then samples the pin, which reads
    pressed, and goes through disconnect, stop, reset, deinit, init and
    start (lines 105-108), its turn not yet over; then [app_main] makes the
    start call of line 74.  That call is the 28th of the run and finds the
    session active, started by the button task one call earlier: the calls
    into the provisioning manager before it end with a start, not with a
    completed stop, reset, deinit. *)
Theorem press_during_boot_overlaps :
  let cs := calls (trace (shared (schedule env_fresh press_during_boot))) in
  prov_calls cs
  = [wifi_prov_mgr_is_provisioned; wifi_prov_mgr_init;
     wifi_prov_mgr_stop_provisioning; wifi_prov_mgr_reset_provisioning;
     wifi_prov_mgr_deinit; wifi_prov_mgr_init;
     wifi_prov_mgr_start_provisioning 1 "abcd1234" "PROV_0ABCDE";
     wifi_prov_mgr_start_provisioning 1 "abcd1234" "PROV_0ABCDE"]
  /\ nth_error cs 27
     = Some (wifi_prov_mgr_start_provisioning 1 "abcd1234" "PROV_0ABCDE")
  /\ session_active (firstn 27 cs) = true
  /\ (exists k,
        main_rest (schedule env_fresh (removelast press_during_boot))
        = Do (wifi_prov_mgr_start_provisioning 1 "abcd1234" "PROV_0ABCDE") k)
  /\ button_rest (schedule env_fresh (removelast press_during_boot))
     <> None
  /\ halted (shared (schedule env_fresh press_during_boot)) = false.
Proof.
  cbv zeta.
  split; [vm_compute; reflexivity|]. split; [vm_compute; reflexivity|].
  split; [vm_compute; reflexivity|].
  split; [eexists; vm_compute; reflexivity|].
  split; [vm_compute; discriminate | vm_compute; reflexivity].
Qed.




(** C3, on the code.  One press of the button that bounces: two edges,
    both delivered before the button task takes its first turn, wait in the
    queue side by side, and, the button still held at both samples, each of
    the two turns of the button task runs the whole re-provisioning.  Two
    triggers are forwarded for the one press: disconnect, stop, reset,
    deinit, init and start are all called twice. *)
Theorem bounce_triggers_twice :
  pending (globals (device env_provisioned [ButtonEdge; ButtonEdge]))
  = [BUTTON_GPIO; BUTTON_GPIO]
  /\ pressed_samples
       (trace (device env_provisioned
                 [ButtonEdge; ButtonEdge; ButtonTaskTurn; ButtonTaskTurn]))
     = 2%nat
  /\ triggers
       (trace (device env_provisioned
                 [ButtonEdge; ButtonEdge; ButtonTaskTurn; ButtonTaskTurn]))
     = 2%nat
  /\ sequence_calls
       (trace (device env_provisioned
                 [ButtonEdge; ButtonEdge; ButtonTaskTurn; ButtonTaskTurn]))
     = [wifi_prov_mgr_is_provisioned;
        esp_wifi_disconnect; wifi_prov_mgr_stop_provisioning;
        wifi_prov_mgr_reset_provisioning; wifi_prov_mgr_deinit;
        wifi_prov_mgr_init;
        wifi_prov_mgr_start_provisioning 1 "abcd1234" "PROV_0ABCDE";
        esp_wifi_disconnect; wifi_prov_mgr_stop_provisioning;
        wifi_prov_mgr_reset_provisioning; wifi_prov_mgr_deinit;
        wifi_prov_mgr_init;
        wifi_prov_mgr_start_provisioning 1 "abcd1234" "PROV_0ABCDE"]
  /\ halted (device env_provisioned
               [ButtonEdge; ButtonEdge; ButtonTaskTurn; ButtonTaskTurn])
     = false.
Proof. repeat split. Qed.

(** C4.  On the device, after any inputs, with an identifier [io] at the
    head of the queue: a turn of the button task first waits the settle
    delay of 50 ms, then samples pin [io], and samples no pin and waits no
    settle delay again in that turn; it forwards a trigger exactly when the
    sample read pressed: after a sample that reads 0 the turn makes no
    further call, and after any other sample it logs the trigger and runs
    the re-provisioning (disconnect, stop, reset, deinit, init, and the
    start call when init returned [ESP_OK]); unless the firmware aborts, it
    leaves the rest of the queue waiting.  The queue has room for 5
    identifiers, and an edge that arrives while 5 are waiting changes
    nothing: it is dropped and the interrupt handler returns without
    waiting. *)
Theorem worker_settles_then_samples_once (env : Env) (inputs : list Input)
    (q : Queue) (io : Z) (rest : list Z) :
  button_queue (globals (device env inputs)) = Some q ->
  q_items q = io :: rest ->
  (exists o r_delay r_level tail,
      run env (List.length (trace (device env inputs)))
        (button_task_body (globals (device env inputs)))
      = (o, (vTaskDelay (pdMS_TO_TICKS 50), r_delay)
            :: (gpio_get_level io, r_level) :: tail)
      /\ samples tail = 0%nat
      /\ filter is_settle_delay tail = []
      /\ triggers tail = (if (ret r_level =? 0)%Z then 0 else 1)%nat
      /\ ((ret r_level =? 0)%Z = true -> tail = [])
      /\ ((ret r_level =? 0)%Z = false ->
          exists r_log r_init,
            hd_error tail
            = Some (ESP_LOGI "Triggering reprovisioning" [], r_log)
            /\ In (wifi_prov_mgr_init, r_init) tail
            /\ sequence_calls tail
               = ([esp_wifi_disconnect; wifi_prov_mgr_stop_provisioning;
                   wifi_prov_mgr_reset_provisioning; wifi_prov_mgr_deinit;
                   wifi_prov_mgr_init]
                  ++ (if (ret r_init =? ESP_OK)%Z
                      then [start_call (globals (device env inputs))]
                      else []))%list)
      /\ (o = Aborted \/ exists g', o = Done (tt, g') /\ pending g' = rest))
  /\ q_length q = 5%nat
  /\ (List.length (q_items q) = 5%nat ->
      button_isr_handler BUTTON_GPIO (globals (device env inputs))
      = Ret (tt, globals (device env inputs))
      /\ step env (device env inputs) ButtonEdge = device env inputs).
Proof.
  intros Hq Hitems.
  destruct (device_sound env inputs) as [_ [_ [_ Hqo]]].
  unfold queue_ok in Hqo. rewrite Hq in Hqo. destruct Hqo as [Hlen Hcap].
  split; [apply (turn_settles env _ _ q io rest Hq Hitems)|].
  split; [exact Hlen|].
  intros Hfive.
  assert (Hfull : queue_full q = true).
  { unfold queue_full. apply Nat.leb_le. rewrite Hlen, Hfive.
    unfold BUTTON_QUEUE_LENGTH. lia. }
  split.
  - apply (button_isr_handler_full _ q _ Hq Hfull).
  - apply (edge_on_full_queue env _ q Hq Hfull).
Qed.

Lemma worker_settles_then_samples_once_witness :
  q_length {| q_length := 5; q_items := repeat BUTTON_GPIO 5 |} = 5%nat
  /\ step env_fresh (device env_fresh (repeat ButtonEdge 5)) ButtonEdge
     = device env_fresh (repeat ButtonEdge 5).
Proof.
  destruct (worker_settles_then_samples_once env_fresh (repeat ButtonEdge 5)
              {| q_length := 5; q_items := repeat BUTTON_GPIO 5 |}
              BUTTON_GPIO (repeat BUTTON_GPIO 4) eq_refl eq_refl)
    as [_ [Hlen Hdrop]].
  split; [exact Hlen|]. apply Hdrop. reflexivity.
Defined.

(** C5, on the code.  With [ESP_ERR_NOT_FOUND] from the first
    [nvs_flash_init] (no partition to use), a failure that is neither of
    the two conditions the firmware recovers from, the boot does not abort:
    nothing is erased, the next call is [esp_netif_init], and the boot runs
    to its end and starts provisioning. *)
Theorem nvs_not_found_boots :
  ret (env_nvs_not_found 0%nat nvs_flash_init) = ESP_ERR_NOT_FOUND
  /\ ret (env_nvs_not_found 0%nat nvs_flash_init) <> ESP_OK
  /\ halted (boot env_nvs_not_found) = false
  /\ firstn 2 (calls (trace (boot env_nvs_not_found)))
     = [nvs_flash_init; esp_netif_init]
  /\ prov_calls (calls (trace (boot env_nvs_not_found)))
     = [wifi_prov_mgr_is_provisioned; wifi_prov_mgr_init;
        wifi_prov_mgr_start_provisioning 1 "abcd1234" "PROV_0ABCDE"]
  /\ ~ In nvs_flash_erase (calls (trace (boot env_nvs_not_found))).
Proof.
  repeat split; try discriminate.
  cbn. intros H.
  repeat (destruct H as [H | H]; [discriminate H|]). exact H.
Qed.

(** C6, as the code has it.  Every return value other than [ESP_OK] from
    the provisioning manager's init and start calls is fatal: the firmware
    aborts at that call, which is the last one it makes. *)
Theorem start_failure_aborts (env : Env) (n : nat) (g : Globals)
    (o : Outcome (unit * Globals)) (tr : list Event) (c : Call) (r : Reply) :
  run env n (start_provisioning g) = (o, tr) ->
  In (c, r) tr ->
  c = wifi_prov_mgr_init \/ c = start_call g ->
  ret r <> ESP_OK ->
  o = Aborted /\ exists before, tr = (before ++ [(c, r)])%list.
Proof.
  intros Hrun Hin Hc Hret.
  rewrite run_start_provisioning in Hrun. cbv zeta in Hrun.
  cbn [Nat.add] in Hrun.
  assert (Hne : (ret r =? ESP_OK)%Z = false) by (apply Z.eqb_neq; exact Hret).
  destruct (ret (env n wifi_prov_mgr_init) =? ESP_OK)%Z eqn:Hinit;
    [destruct (ret (env (S n) (start_call g)) =? ESP_OK)%Z eqn:Hstart|];
    inversion Hrun; subst o tr; clear Hrun; cbn [In] in Hin;
    repeat (destruct Hin as [Hin | Hin]); try contradiction;
    injection Hin as <- <-; try congruence;
    try (destruct Hc as [Hc | Hc]; discriminate Hc).
  - split; [reflexivity|]. eexists [_]. reflexivity.
  - split; [reflexivity|]. exists []. reflexivity.
Qed.

Lemma start_failure_aborts_witness :
  fst (run env_init_fails 0 (start_provisioning globals_pending)) = Aborted.
Proof.
  apply (start_failure_aborts env_init_fails 0 globals_pending
           (fst (run env_init_fails 0 (start_provisioning globals_pending)))
           (snd (run env_init_fails 0 (start_provisioning globals_pending)))
           wifi_prov_mgr_init (returns ESP_ERR_NO_MEM)).
  - reflexivity.
  - cbn. left. reflexivity.
  - left. reflexivity.
  - discriminate.
Defined.

(** C6, as stated, fails: when [wifi_prov_mgr_reset_provisioning] returns
    [ESP_FAIL], the turn of the button task goes on to deinit, init and
    start and completes. *)
Lemma reset_failure_ignored :
  In (wifi_prov_mgr_reset_provisioning, returns ESP_FAIL)
     (snd (run env_reset_fails 21 (button_task_body globals_pending)))
  /\ fst (run env_reset_fails 21 (button_task_body globals_pending))
     = Done (tt, taken globals_pending
                   {| q_length := BUTTON_QUEUE_LENGTH;
                      q_items := [BUTTON_GPIO] |} [])
  /\ sequence_calls
       (snd (run env_reset_fails 21 (button_task_body globals_pending)))
     = [esp_wifi_disconnect; wifi_prov_mgr_stop_provisioning;
        wifi_prov_mgr_reset_provisioning; wifi_prov_mgr_deinit;
        wifi_prov_mgr_init;
        wifi_prov_mgr_start_provisioning 1 "abcd1234" "PROV_0ABCDE"].
Proof.
  split; [|split; reflexivity].
  cbn. do 5 right. left. reflexivity.
Qed.

(** C7.  For a 6-byte MAC address the service name generator returns, on
    every invocation (whatever the environment, the number of earlier calls
    and the static variables), the same text, fixed by the address alone: 11
    characters, [PROV_] followed by 6 upper-case hexadecimal digits that
    read back as the last three bytes of the address.  The 12-byte buffer
    takes it whole. *)
Theorem service_name_of_mac (mac : list byte) :
  List.length mac = 6%nat ->
  (forall env n g,
      reply_mac (env n esp_wifi_get_mac) = mac ->
      run env n (get_device_service_name SERVICE_NAME_SIZE g)
      = (Done (service_name_text mac, g),
         [(esp_wifi_get_mac, env n esp_wifi_get_mac)]))
  /\ String.length (service_name_text mac) = 11%nat
  /\ exists hex,
       service_name_text mac = "PROV_" ++ hex
       /\ String.length hex = 6%nat
       /\ all_upper_hex hex = true
       /\ hex_bytes hex = Some (map Byte.to_N (skipn 3 mac)).
Proof.
  intros Hlen.
  destruct mac as [|m0 [|m1 [|m2 [|m3 [|m4 [|m5 [|]]]]]]]; try discriminate.
  split; [|split].
  - intros env n g Hmac. cbn. rewrite Hmac. reflexivity.
  - reflexivity.
  - exists (fmt_02X m3 ++ fmt_02X m4 ++ fmt_02X m5).
    repeat split.
    + rewrite !all_upper_hex_app, !fmt_02X_upper_hex. reflexivity.
    + cbn [skipn map].
      apply fmt_02X_reads_back, fmt_02X_reads_back.
      destruct m5; reflexivity.
Qed.

Lemma service_name_of_mac_witness :
  List.length sample_mac = 6%nat
  /\ run env_fresh 9 (get_device_service_name SERVICE_NAME_SIZE globals_init)
     = (Done ("PROV_0ABCDE", globals_init),
        [(esp_wifi_get_mac, env_fresh 9%nat esp_wifi_get_mac)]).
Proof.
  split; [reflexivity|].
  apply (proj1 (service_name_of_mac sample_mac eq_refl)). reflexivity.
Defined.

(** C8.  The service name is written in one place only, line 139, by the
    generator, so the names the encoder is given are the generator's.  For
    every such name, of 11 characters, which is what the 12-byte buffer
    holds, the payload is the whole formatted text, reads back as exactly
    the four fields [ver], [name], [pop], [transport] with the values given
    and no other key, and fits, with its terminator, in the 150-byte
    buffer.  On the device, after any inputs, every payload handed to the
    QR code generator is the payload of such a name, the one the static
    variable holds. *)
Theorem generated_payload_reads_back (env : Env) (inputs : list Input) :
  (forall mac,
      (String.length (service_name_text mac) <= SERVICE_NAME_SIZE - 1)%nat
      /\ qr_payload (service_name_text mac)
         = payload_text PROV_QR_VERSION (service_name_text mac) pop
             PROV_TRANSPORT_BLE
      /\ Json.parse_object (qr_payload (service_name_text mac))
         = Some [("ver", PROV_QR_VERSION); ("name", service_name_text mac);
                 ("pop", pop); ("transport", PROV_TRANSPORT_BLE)]
      /\ (String.length (qr_payload (service_name_text mac)) + 1
          <= PAYLOAD_SIZE)%nat)
  /\ (forall payload,
        In (esp_qrcode_generate payload)
           (calls (trace (device env inputs))) ->
        exists mac,
          payload = qr_payload (service_name_text mac)
          /\ (halted (device env inputs) = false ->
              service_name (globals (device env inputs))
              = service_name_text mac)).
Proof.
  split.
  - intros mac.
    assert (Hfit : qr_payload (service_name_text mac)
                   = payload_text PROV_QR_VERSION (service_name_text mac)
                       pop PROV_TRANSPORT_BLE).
    { apply snprintf_fits.
      rewrite payload_text_length, service_name_text_length.
      unfold PAYLOAD_SIZE. lia. }
    split; [rewrite service_name_text_length; unfold SERVICE_NAME_SIZE; lia|].
    split; [exact Hfit|].
    split; [apply (payload_text_reads_back_name mac)|].
    rewrite Hfit, payload_text_length, service_name_text_length.
    unfold PAYLOAD_SIZE. lia.
  - intros payload Hin.
    destruct (device_names env inputs)
      as [name [[mac Hmac] [Hall [_ [_ Hname]]]]].
    exists mac. subst name. split; [|exact Hname].
    rewrite Forall_forall in Hall. apply (Hall _ Hin).
Qed.

Lemma generated_payload_reads_back_witness :
  In (esp_qrcode_generate (qr_payload "PROV_0ABCDE"))
     (calls (trace (device env_fresh [])))
  /\ exists mac,
       qr_payload "PROV_0ABCDE" = qr_payload (service_name_text mac)
       /\ (halted (device env_fresh []) = false ->
           service_name (globals (device env_fresh []))
           = service_name_text mac).
Proof.
  assert (Hin : In (esp_qrcode_generate (qr_payload "PROV_0ABCDE"))
                   (calls (trace (device env_fresh [])))).
  { vm_compute. do 20 right. left. reflexivity. }
  split; [exact Hin|].
  exact (proj2 (generated_payload_reads_back env_fresh []) _ Hin).
Defined.



(** C10, as the code has it.  On the device, after any inputs and whatever
    the session is at (nothing is asked about it), a turn of the button
    task whose sample reads pressed appends to the trace a run of the
    sequence disconnect, stop, reset, deinit, init, with the start call
    after it when init returned [ESP_OK]; when init returned anything else
    the firmware aborts there and the start call is not made.  In
    particular, when the only call into the provisioning manager so far is
    the boot-time query (credentials were stored, the manager was never
    initialised and no session is active), stop, reset and deinit are still
    called, before the first init. *)
Theorem press_ignores_session_state (env : Env) (inputs : list Input)
    (io : Z) (rest : list Z) (o : Outcome (unit * Globals))
    (tr : list Event) :
  halted (device env inputs) = false ->
  pending (globals (device env inputs)) = io :: rest ->
  run env (List.length (trace (device env inputs)))
    (button_task_body (globals (device env inputs))) = (o, tr) ->
  pressed_samples tr = 1%nat ->
  trace (step env (device env inputs) ButtonTaskTurn)
  = (trace (device env inputs) ++ tr)%list
  /\ (exists r_init,
        In (wifi_prov_mgr_init, r_init) tr
        /\ sequence_calls tr
           = ([esp_wifi_disconnect; wifi_prov_mgr_stop_provisioning;
               wifi_prov_mgr_reset_provisioning; wifi_prov_mgr_deinit;
               wifi_prov_mgr_init]
              ++ (if (ret r_init =? ESP_OK)%Z
                  then [start_call (globals (device env inputs))]
                  else []))%list
        /\ ((ret r_init =? ESP_OK)%Z = false ->
            halted (step env (device env inputs) ButtonTaskTurn) = true))
  /\ (prov_calls (calls (trace (device env inputs)))
      = [wifi_prov_mgr_is_provisioned] ->
      session_active (calls (trace (device env inputs))) = false
      /\ exists tail,
           prov_calls
             (calls (trace (step env (device env inputs) ButtonTaskTurn)))
           = ([wifi_prov_mgr_is_provisioned;
               wifi_prov_mgr_stop_provisioning;
               wifi_prov_mgr_reset_provisioning; wifi_prov_mgr_deinit;
               wifi_prov_mgr_init] ++ tail)%list).
Proof.
  intros Hh Hpend Hrun Hpressed.
  set (d := device env inputs) in *.
  assert (Htrace : trace (step env d ButtonTaskTurn) = (trace d ++ tr)%list).
  { unfold step, handler_of. rewrite (exec_run env d _ o tr Hh Hrun).
    destruct o as [[u g]| |]; reflexivity. }
  unfold pending in Hpend.
  destruct (button_queue (globals d)) as [q|] eqn:Hq; [|discriminate].
  destruct (pressed_turn_sequence env _ _ q io rest o tr Hq Hpend Hrun
              Hpressed) as [r_init [Hin [Hseq Habort]]].
  split; [exact Htrace|].
  split.
  { exists r_init. split; [exact Hin|]. split; [exact Hseq|].
    intros Hfail. unfold step, handler_of.
    rewrite (exec_run env d _ o tr Hh Hrun), (Habort Hfail). reflexivity. }
  intros Honly. split.
  - pose proof (phase_shape (calls (trace d))) as Hshape.
    destruct (device_sound env inputs) as [[_ Hphase] _].
    fold d in Hphase.
    destruct (Hphase Hh) as [Hp | Hp]; rewrite Hp in Hshape.
    + apply Hshape.
    + exfalso.
      assert (Hstarted : exists c, In c (prov_calls (calls (trace d)))
                                   /\ is_start_call c = true).
      { clear - Hshape. unfold session_active in Hshape.
        assert (Hgen : forall cs s,
                   fold_left session_step cs s = true ->
                   s = true
                   \/ exists c, In c (prov_calls cs)
                                /\ is_start_call c = true).
        { induction cs as [|c cs IH]; intros s Hs; [left; exact Hs|].
          cbn [fold_left] in Hs. destruct (IH _ Hs) as [Hstep | [c' [Hc' Hst]]].
          - destruct c; cbn in Hstep; auto;
              try discriminate Hstep;
              right; eexists; (split; [left; reflexivity | reflexivity]).
          - right. exists c'. split; [|exact Hst].
            unfold prov_calls in *. cbn [filter].
            destruct (is_prov_mgr_call c); [right|]; exact Hc'. }
        destruct (Hgen _ _ Hshape) as [Hf | Hex];
          [discriminate | exact Hex]. }
      destruct Hstarted as [c [Hc Hst]]. rewrite Honly in Hc.
      destruct Hc as [Hc | []]. subst c. discriminate.
  - rewrite Htrace, calls_app, prov_calls_app, Honly,
      prov_calls_of_sequence, Hseq.
    eexists. cbn. reflexivity.
Qed.

Lemma press_ignores_session_state_witness :
  exists tail,
    prov_calls
      (calls (trace (step env_provisioned
                       (device env_provisioned [ButtonEdge])
                       ButtonTaskTurn)))
    = ([wifi_prov_mgr_is_provisioned; wifi_prov_mgr_stop_provisioning;
        wifi_prov_mgr_reset_provisioning; wifi_prov_mgr_deinit;
        wifi_prov_mgr_init] ++ tail)%list.
Proof.
  apply (press_ignores_session_state env_provisioned [ButtonEdge]
           BUTTON_GPIO []
           (fst (run env_provisioned 19 (button_task_body globals_pending)))
           (snd (run env_provisioned 19 (button_task_body globals_pending))));
    reflexivity.
Defined.

(** C10, as stated, fails: after a boot that found credentials, with a
    provisioning manager whose init returns [ESP_ERR_NO_MEM], an accepted
    press calls disconnect, stop, reset, deinit and init, the firmware
    aborts there, and no start call is ever made: the sequence is not run
    in full. *)
Lemma press_after_provisioned_boot_stops_at_init :
  halted (device env_provisioned_init_fails [ButtonEdge]) = false
  /\ pending (globals (device env_provisioned_init_fails [ButtonEdge]))
     = [BUTTON_GPIO]
  /\ prov_calls
       (calls (trace (device env_provisioned_init_fails [ButtonEdge])))
     = [wifi_prov_mgr_is_provisioned]
  /\ pressed_samples
       (trace (device env_provisioned_init_fails
                 [ButtonEdge; ButtonTaskTurn])) = 1%nat
  /\ sequence_calls
       (trace (device env_provisioned_init_fails
                 [ButtonEdge; ButtonTaskTurn]))
     = [wifi_prov_mgr_is_provisioned; esp_wifi_disconnect;
        wifi_prov_mgr_stop_provisioning; wifi_prov_mgr_reset_provisioning;
        wifi_prov_mgr_deinit; wifi_prov_mgr_init]
  /\ start_calls
       (trace (device env_provisioned_init_fails
                 [ButtonEdge; ButtonTaskTurn])) = 0%nat
  /\ halted (device env_provisioned_init_fails
               [ButtonEdge; ButtonTaskTurn]) = true.
Proof. repeat split. Qed.

(** * Further properties *)

(** ** Event handler *)

(** Case analysis on the event a handler is given. *)
Ltac split_event event_base event_id :=
  unfold event_handler;
  destruct event_base; cbn [event_base_is andb];
  repeat match goal with
  | |- context [(event_id =? ?v)%Z] =>
      destruct (Z.eqb_spec event_id v)
  | |- context [String.eqb ?a ?b] => destruct (String.eqb a b)
  end.

(** X1.  Whatever event it is handed, the event handler returns, leaves the
    static variables as they are and makes at most one call: the Wi-Fi
    connect exactly for the station-start event of the Wi-Fi base, and
    nothing but a log line for every other event. *)
Theorem event_handler_connects_on_station_start (env : Env) (n : nat)
    (g : Globals) (event_base : esp_event_base_t) (event_id : Z)
    (event_data : event_data_t) :
  exists tr,
    run env n (event_handler event_base event_id event_data g)
    = (Done (tt, g), tr)
    /\ (List.length tr <= 1)%nat
    /\ (calls tr = [esp_wifi_connect]
        <-> event_base = WIFI_EVENT /\ event_id = WIFI_EVENT_STA_START)
    /\ (forall c, In c (calls tr) ->
          c = esp_wifi_connect \/ is_log_call c = true).
Proof.
  split_event event_base event_id; subst;
    eexists; (split; [reflexivity|]); cbn;
    (split; [lia|]);
    (split; [split; [intros H; try discriminate H; auto
                    | intros [Hb Hid]; try discriminate Hb;
                      try reflexivity; try congruence]|]);
    intros c Hc; repeat (destruct Hc as [Hc | Hc]); try contradiction;
    subst c; auto.
Qed.

(** X2.  The event handler makes no call at all exactly for the events it
    does not recognise: any base other than the three it knows, any Wi-Fi
    event but station start, any IP event but got-IP, and any provisioning
    event but start, credentials received, credentials accepted and end (a
    credentials failure is not even logged).  For a recognised event it
    makes exactly one call. *)
Theorem event_handler_ignores_unrecognised (env : Env) (n : nat)
    (g : Globals) (event_base : esp_event_base_t) (event_id : Z)
    (event_data : event_data_t) :
  let recognised :=
    (event_base = WIFI_PROV_EVENT
     /\ (event_id = WIFI_PROV_START \/ event_id = WIFI_PROV_CRED_RECV
         \/ event_id = WIFI_PROV_CRED_SUCCESS \/ event_id = WIFI_PROV_END))
    \/ (event_base = WIFI_EVENT /\ event_id = WIFI_EVENT_STA_START)
    \/ (event_base = IP_EVENT /\ event_id = IP_EVENT_STA_GOT_IP) in
  let tr := snd (run env n (event_handler event_base event_id event_data g)) in
  (tr = [] <-> ~ recognised)
  /\ (recognised -> List.length tr = 1%nat)
  /\ run env n (event_handler WIFI_PROV_EVENT WIFI_PROV_CRED_FAIL event_data g)
     = (Done (tt, g), []).
Proof.
  cbv zeta.
  split_event event_base event_id; subst; cbn;
    (split; [split; [intros H; try discriminate H; intros Hr
                    | intros Hr; try reflexivity; exfalso; apply Hr]|]);
    try (split; [intros Hr; try reflexivity|reflexivity]);
    try tauto;
    try (repeat match goal with
         | H : _ \/ _ |- _ => destruct H
         | H : _ /\ _ |- _ => destruct H
         end; congruence).
Qed.

(** ** Persistent store *)

(** X3.  The boot erases the persistent store exactly when the first
    initialisation returned one of the two codes no-free-pages and
    new-version-found, and then initialises it a second time unless the
    erase failed; this block aborts exactly when the recovery was taken and
    the erase or the second initialisation failed.  Otherwise it makes the
    one call and goes on, whatever that call returned. *)
Theorem store_erased_on_two_codes (env : Env) (n : nat) (g : Globals) :
  let first := ret (env n nvs_flash_init) in
  let recovers := first = ESP_ERR_NVS_NO_FREE_PAGES
                  \/ first = ESP_ERR_NVS_NEW_VERSION_FOUND in
  let erase_ok := ret (env (1 + n)%nat nvs_flash_erase) = ESP_OK in
  let again_ok := ret (env (2 + n)%nat nvs_flash_init) = ESP_OK in
  exists o tr,
    run env n (app_main_nvs g) = (o, tr)
    /\ (In nvs_flash_erase (calls tr) <-> recovers)
    /\ (count_call nvs_flash_init tr = 2%nat <-> recovers /\ erase_ok)
    /\ (o = Aborted <-> recovers /\ ~ (erase_ok /\ again_ok))
    /\ (o <> Aborted -> o = Done (tt, g))
    /\ (~ recovers -> calls tr = [nvs_flash_init]).
Proof.
  cbv zeta.
  destruct (Z.eq_dec (ret (env n nvs_flash_init)) ESP_ERR_NVS_NO_FREE_PAGES)
    as [H1 | H1];
    [|destruct (Z.eq_dec (ret (env n nvs_flash_init))
                 ESP_ERR_NVS_NEW_VERSION_FOUND) as [H2 | H2]].
  3: { rewrite (nvs_other_failure_ignored env n g H1 H2).
       do 2 eexists. split; [reflexivity|]. cbn.
       repeat split; try tauto; try discriminate; try congruence;
         try (intros [H | []]; discriminate H);
         try (intros [[H | H] _]; contradiction). }
  all: rewrite (nvs_recovers env n g) by auto; cbv zeta; cbn [snd Nat.add];
    destruct (Z.eqb_spec (ret (env (S n) nvs_flash_erase)) ESP_OK) as [He|He];
    [destruct (Z.eqb_spec (ret (env (S (S n)) nvs_flash_init)) ESP_OK)
       as [Ha|Ha]|];
    do 2 eexists; (split; [reflexivity|]); cbn;
    repeat split; try tauto; try discriminate; try congruence; auto;
    try (intros [_ Hn]; apply Hn; auto);
    try (intros [_ Hn]; congruence);
    try (intros Hn; exfalso; apply Hn; auto).
Qed.

(** ** Service name and payload *)

Lemma substring_length (s : string) (n : nat) :
  String.length (substring 0 n s) = Nat.min n (String.length s).
Proof.
  revert n. induction s as [|c s IH]; intros [|n]; cbn; try reflexivity.
  rewrite IH. reflexivity.
Qed.

Lemma substring_prefix (s : string) (n : nat) :
  prefix (substring 0 n s) s = true.
Proof.
  apply prefix_correct. rewrite substring_length.
  revert n. induction s as [|c s IH]; intros [|n]; cbn; try reflexivity.
  rewrite IH. reflexivity.
Qed.

(** X4.  Given a buffer of any size [max] of at least one byte, the
    service name generator stores the first [max - 1] characters of the
    11-character name: the stored text is a prefix of the full name, its
    length is the smaller of [max - 1] and 11, and it is the full name as
    soon as the buffer has 12 bytes, which is what [app_main] passes. *)
Theorem service_name_fits_buffer (env : Env) (n : nat) (g : Globals)
    (max : nat) (mac : list byte) :
  (1 <= max)%nat ->
  out (env n esp_wifi_get_mac) = OutMac mac ->
  List.length mac = 6%nat ->
  exists name,
    run env n (get_device_service_name max g)
    = (Done (name, g), [(esp_wifi_get_mac, env n esp_wifi_get_mac)])
    /\ String.length name = Nat.min (max - 1) 11
    /\ prefix name (service_name_text mac) = true
    /\ ((SERVICE_NAME_SIZE <= max)%nat -> name = service_name_text mac)
    /\ ((max < SERVICE_NAME_SIZE)%nat -> name <> service_name_text mac).
Proof.
  intros Hpos Hout Hlen.
  exists (snprintf max (service_name_text mac)).
  assert (Hmac : reply_mac (env n esp_wifi_get_mac) = mac).
  { unfold reply_mac. rewrite Hout. reflexivity. }
  split; [cbn; rewrite Hmac; reflexivity|].
  unfold snprintf, SERVICE_NAME_SIZE.
  split; [rewrite substring_length, service_name_text_length; reflexivity|].
  split; [apply substring_prefix|].
  split.
  - intros Hmax. apply substring_whole.
    rewrite service_name_text_length. lia.
  - intros Hmax Heq.
    apply (f_equal String.length) in Heq.
    rewrite substring_length, service_name_text_length in Heq. lia.
Qed.

Lemma service_name_fits_buffer_witness :
  exists name,
    run env_fresh 9 (get_device_service_name 8 globals_init)
    = (Done (name, globals_init),
       [(esp_wifi_get_mac, env_fresh 9%nat esp_wifi_get_mac)])
    /\ String.length name = Nat.min (8 - 1) 11
    /\ prefix name (service_name_text sample_mac) = true
    /\ ((SERVICE_NAME_SIZE <= 8)%nat -> name = service_name_text sample_mac)
    /\ ((8 < SERVICE_NAME_SIZE)%nat -> name <> service_name_text sample_mac).
Proof.
  apply (service_name_fits_buffer env_fresh 9 globals_init 8 sample_mac);
    [lia | reflexivity | reflexivity].
Defined.

(** X5.  Whatever the service name, the payload never outgrows its buffer:
    its length is the smaller of 149 and 57 plus the length of the name, so
    with its terminator it fits the 150 bytes; it is the whole formatted
    text exactly when the name has at most 92 characters, and a proper
    prefix of it otherwise. *)
Theorem payload_never_overflows (name : string) :
  String.length (qr_payload name)
  = Nat.min (PAYLOAD_SIZE - 1) (57 + String.length name)
  /\ (String.length (qr_payload name) + 1 <= PAYLOAD_SIZE)%nat
  /\ prefix (qr_payload name)
       (payload_text PROV_QR_VERSION name pop PROV_TRANSPORT_BLE) = true
  /\ (qr_payload name
      = payload_text PROV_QR_VERSION name pop PROV_TRANSPORT_BLE
      <-> (String.length name <= 92)%nat).
Proof.
  unfold qr_payload, snprintf, PAYLOAD_SIZE.
  rewrite substring_length, payload_text_length.
  split; [reflexivity|]. split; [lia|]. split; [apply substring_prefix|].
  split.
  - intros Heq. apply (f_equal String.length) in Heq.
    rewrite substring_length, payload_text_length in Heq. lia.
  - intros Hlen. apply substring_whole. rewrite payload_text_length. lia.
Qed.

Lemma hex_bytes_service_name (mac : list byte) :
  List.length mac = 6%nat ->
  exists hex,
    service_name_text mac = "PROV_" ++ hex
    /\ hex_bytes hex = Some (map Byte.to_N (skipn 3 mac)).
Proof.
  intros Hlen.
  destruct mac as [|m0 [|m1 [|m2 [|m3 [|m4 [|m5 [|]]]]]]]; try discriminate.
  exists (fmt_02X m3 ++ fmt_02X m4 ++ fmt_02X m5). split; [reflexivity|].
  cbn [skipn map]. apply fmt_02X_reads_back, fmt_02X_reads_back.
  destruct m5; reflexivity.
Qed.

Lemma byte_to_N_inj (a b : byte) : Byte.to_N a = Byte.to_N b -> a = b.
Proof.
  intros H. pose proof (Byte.of_to_N a) as Ha.
  rewrite H, Byte.of_to_N in Ha. congruence.
Qed.

Lemma map_to_N_inj (a b : list byte) :
  map Byte.to_N a = map Byte.to_N b -> a = b.
Proof.
  revert b. induction a as [|x a IH]; intros [|y b] H; cbn in H;
    try discriminate; [reflexivity|].
  injection H as Hx Hab. apply byte_to_N_inj in Hx. subst.
  rewrite (IH b Hab). reflexivity.
Qed.

(** X6.  Two 6-byte MAC addresses get the same service name exactly when
    their last three bytes are the same: the first three bytes play no
    part, and any difference in the last three shows in the name. *)
Theorem service_name_tells_last_three_bytes (mac1 mac2 : list byte) :
  List.length mac1 = 6%nat -> List.length mac2 = 6%nat ->
  (service_name_text mac1 = service_name_text mac2
   <-> skipn 3 mac1 = skipn 3 mac2).
Proof.
  intros H1 H2. split.
  - intros Heq.
    destruct (hex_bytes_service_name mac1 H1) as [h1 [Hn1 Hb1]].
    destruct (hex_bytes_service_name mac2 H2) as [h2 [Hn2 Hb2]].
    rewrite Hn1, Hn2 in Heq. injection Heq as Heq. subst h2.
    rewrite Hb1 in Hb2. injection Hb2 as Hb2.
    apply map_to_N_inj, Hb2.
  - intros Heq.
    destruct mac1 as [|a0 [|a1 [|a2 [|a3 [|a4 [|a5 [|]]]]]]];
      try discriminate.
    destruct mac2 as [|b0 [|b1 [|b2 [|b3 [|b4 [|b5 [|]]]]]]];
      try discriminate.
    cbn in Heq. injection Heq as -> -> ->. reflexivity.
Qed.

Lemma service_name_tells_last_three_bytes_witness :
  service_name_text sample_mac
  = service_name_text [x00; x11; x22; x0a; xbc; xde].
Proof.
  apply (service_name_tells_last_three_bytes sample_mac
           [x00; x11; x22; x0a; xbc; xde]); reflexivity.
Defined.

(** ** Boot *)

(** X7.  A boot stops at the first failure of a call wrapped in
    [ESP_ERROR_CHECK] and at nothing else: when it aborts, the last call
    made is the erase of the store, its second initialisation, the Wi-Fi
    initialisation, the manager's init or its start, and that call returned
    an error; when it does not abort it runs to the QR code or to the start
    of the radio.  In both cases every checked call before the last one
    returned [ESP_OK]; what the first initialisation of the store and the
    calls that are not checked returned stops nothing. *)
Theorem boot_stops_at_failed_check (env : Env) :
  exists before c r,
    trace (boot env) = (before ++ [(c, r)])%list
    /\ before <> []
    /\ (halted (boot env) = true ->
        is_checked_call c = true /\ ret r <> ESP_OK)
    /\ (halted (boot env) = false -> is_final_call c = true)
    /\ Forall (fun e => is_checked_call (fst e) = true ->
                        ret (snd e) = ESP_OK) (tl before).
Proof.
  boot_cases;
    match goal with
    | |- exists b c r, ?l = _ /\ _ =>
        exists (removelast l), (fst (last l (nvs_flash_init, ok))),
          (snd (last l (nvs_flash_init, ok)))
    end;
    cbn -[Z.eqb service_name_text qr_payload];
    (split; [reflexivity|]); (split; [discriminate|]);
    (split; [intros Hh;
             first [discriminate Hh
                   | split; [reflexivity | apply Z.eqb_neq; assumption]]|]);
    (split; [intros Hh; first [discriminate Hh | reflexivity]|]);
    repeat (constructor;
            [cbn; intros Hc; try discriminate Hc;
             apply Z.eqb_eq; assumption|]);
    constructor.
Qed.

(** Membership of an event in an explicit list, resolved. *)
(** X8.  Once the boot reaches the query of the provisioning manager, it
    takes the connect path exactly when the query returned [ESP_OK] and
    stored true.  On that path it sets the station mode and starts the
    radio, completes, and makes no other call into the provisioning
    manager: neither init nor start.  On the other path it calls the
    manager's init and never starts the radio itself. *)
Theorem stored_credentials_skip_provisioning (env : Env) (r : Reply) :
  In (wifi_prov_mgr_is_provisioned, r) (trace (boot env)) ->
  (ret r = ESP_OK /\ reply_bool false r = true ->
   halted (boot env) = false
   /\ prov_calls (calls (trace (boot env))) = [wifi_prov_mgr_is_provisioned]
   /\ exists before r_log r_mode r_start,
        trace (boot env)
        = (before
           ++ [(wifi_prov_mgr_is_provisioned, r);
               (ESP_LOGI "Already provisioned, connecting..." [], r_log);
               (esp_wifi_set_mode, r_mode); (esp_wifi_start, r_start)])%list)
  /\ (~ (ret r = ESP_OK /\ reply_bool false r = true) ->
      In wifi_prov_mgr_init (calls (trace (boot env)))
      /\ ~ In esp_wifi_start (calls (trace (boot env)))
      /\ ~ In esp_wifi_set_mode (calls (trace (boot env)))).
Proof.
  boot_cases; intros Hin; find_event Hin;
    try discriminate Hin; injection Hin as <-.
  all:
    match goal with
    | E : negb _ || negb _ = true |- _ =>
        split;
        [intros [Hok Hb]; rewrite Hok, Hb in E; discriminate E
        |intros _; cbn;
         split; [repeat (first [left; reflexivity | right])|];
         split; intros Hx;
         repeat (destruct Hx as [Hx | Hx]; [discriminate Hx|]); exact Hx]
    | E : negb _ || negb _ = false |- _ =>
        apply orb_false_elim in E; destruct E as [Eok Eb];
        apply negb_false_iff in Eok, Eb; apply Z.eqb_eq in Eok;
        split;
        [intros _; split; [reflexivity|]; split; [reflexivity|];
         match goal with
         | |- exists b r1 r2 r3, ?l = _ =>
             exists (firstn (List.length l - 4) l)
         end;
         do 3 eexists; cbn; reflexivity
        |intros Hn; exfalso; apply Hn; split; assumption]
    end.
Qed.

(** ** Invariants of the device *)

(** X9.  On the device, after any inputs, the calls [esp_wifi_disconnect],
    stop, reset and deinit have each been made once per trigger, no more
    and no less; the provisioning manager has been initialised at most once
    more often than it has been deinitialised, and started at most as often
    as it has been initialised. *)
Theorem teardown_once_per_trigger (env : Env) (inputs : list Input) :
  let tr := trace (device env inputs) in
  count_call esp_wifi_disconnect tr = triggers tr
  /\ count_call wifi_prov_mgr_stop_provisioning tr = triggers tr
  /\ count_call wifi_prov_mgr_reset_provisioning tr = triggers tr
  /\ count_call wifi_prov_mgr_deinit tr = triggers tr
  /\ (count_call wifi_prov_mgr_init tr <= triggers tr + 1)%nat
  /\ (List.length (filter is_start_call (calls tr))
      <= count_call wifi_prov_mgr_init tr)%nat.
Proof.
  cbv zeta. apply device_invariant.
  - boot_cases; cbn; repeat split; lia.
  - intros d i [H1 [H2 [H3 [H4 [H5 H6]]]]].
    destruct (halted d) eqn:Hh.
    { unfold step. rewrite exec_halted by exact Hh. auto 10. }
    step_cases d i Hh;
      rewrite ?app_nil_r, ?count_call_app, ?triggers_app, ?calls_app,
        ?filter_app, ?length_app;
      cbn; repeat split; try assumption; lia.
Qed.

(** X10.  On the device, after any inputs, one service name serves
    throughout: it is an 11-character name of the generator, made at boot
    from what the array [mac] held after the one read of the MAC address
    (so, when that read stored six bytes, the name of those six bytes); it
    is what the static variable holds while the firmware runs, every start
    call carries it together with security level 1 and the proof of
    possession [abcd1234], and every payload handed to the QR code
    generator is the payload of that name, which reads back as its four
    fields. *)
Theorem one_service_name_throughout (env : Env) (inputs : list Input) :
  exists name,
    (exists mac, name = service_name_text mac)
    /\ Forall (carries name) (calls (trace (device env inputs)))
    /\ (forall r mac,
          In (esp_wifi_get_mac, r) (trace (device env inputs)) ->
          out r = OutMac mac -> List.length mac = 6%nat ->
          name = service_name_text mac)
    /\ (count_call esp_wifi_get_mac (trace (device env inputs)) <= 1)%nat
    /\ (halted (device env inputs) = false ->
        service_name (globals (device env inputs)) = name)
    /\ String.length name = 11%nat
    /\ Json.parse_object (qr_payload name) = Some (payload_fields name).
Proof.
  destruct (device_names env inputs)
    as [name [[mac Hmac] [Hall [Hread [Hcount Hname]]]]].
  exists name. split; [exists mac; exact Hmac|].
  split; [exact Hall|]. split.
  - intros r mac' Hin Hout _. rewrite (Hread r Hin).
    unfold reply_mac. rewrite Hout. reflexivity.
  - split; [exact Hcount|]. split; [exact Hname|]. subst name.
    split; [apply service_name_text_length|].
    apply (payload_text_reads_back_name mac).
Qed.

(** ** Loops and inputs *)

Lemma start_calls_app (a b : list Event) :
  start_calls (a ++ b) = (start_calls a + start_calls b)%nat.
Proof.
  unfold start_calls. rewrite calls_app, filter_app, length_app.
  reflexivity.
Qed.

Lemma torn_down_app (j k : nat) (a b : list Event) :
  torn_down j a -> torn_down k b -> torn_down (j + k) (a ++ b).
Proof.
  unfold torn_down. intros Ha Hb. rewrite !count_call_app.
  destruct Ha as [-> [-> [-> [-> ->]]]].
  destruct Hb as [-> [-> [-> [-> ->]]]].
  repeat split.
Qed.

(** What one turn of the button task does for the sample it takes. *)
Lemma turn_tears_down (env : Env) (n : nat) (g : Globals) (q : Queue)
    (io : Z) (rest : list Z) (o : Outcome (unit * Globals))
    (tr : list Event) :
  button_queue g = Some q -> q_items q = io :: rest ->
  run env n (button_task_body g) = (o, tr) ->
  torn_down (pressed_samples tr) tr
  /\ (start_calls tr <= pressed_samples tr)%nat
  /\ (o <> Aborted -> start_calls tr = pressed_samples tr).
Proof.
  intros Hq Hitems Hrun.
  rewrite (run_button_task_body env n g q io rest Hq Hitems),
    run_start_provisioning in Hrun.
  cbv zeta in Hrun. unfold press_prefix in Hrun. cbn [Nat.add app] in Hrun.
  unfold torn_down, start_calls, pressed_samples, is_pressed_sample.
  destruct (ret (env (S n) (gpio_get_level io)) =? 0)%Z eqn:Hlvl;
    [|destruct (ret (env (S (S (S (S (S (S (S n))))))) wifi_prov_mgr_init)
                =? ESP_OK)%Z;
      [destruct (ret (env (S (S (S (S (S (S (S (S n))))))))
                        (start_call (taken g q rest))) =? ESP_OK)%Z|]];
    inversion Hrun; subst o tr; clear Hrun; cbn; rewrite Hlvl; cbn;
    repeat split; try lia; intros Ho; congruence.
Qed.

(** X11.  The loop of the button task stops only by waiting: run for more
    turns than identifiers are waiting in the queue, it ends suspended on
    the empty queue (or in [abort()]), never by returning; it has then
    sampled the pin at most once per identifier that was waiting, and
    exactly once per identifier when it ends suspended.  Each sample that
    read pressed was acted upon: disconnect, stop, reset, deinit and init
    were each called once per pressed sample (and the trigger logged as
    often), and so was start when the loop ends suspended. *)
Theorem button_task_waits_on_empty_queue (env : Env) (turns : nat) :
  forall (n : nat) (g : Globals) (q : Queue),
    button_queue g = Some q ->
    (List.length (q_items q) < turns)%nat ->
    exists o tr,
      run env n (button_task turns g) = (o, tr)
      /\ (o = Blocked \/ o = Aborted)
      /\ (samples tr <= List.length (q_items q))%nat
      /\ (o = Blocked -> samples tr = List.length (q_items q))
      /\ triggers tr = pressed_samples tr
      /\ torn_down (pressed_samples tr) tr
      /\ (start_calls tr <= pressed_samples tr)%nat
      /\ (o = Blocked -> start_calls tr = pressed_samples tr).
Proof.
  induction turns as [|turns IH]; intros n g q Hq Hlen; [lia|].
  cbn [button_task]. unfold mbind at 1. rewrite run_pbind.
  destruct (q_items q) as [|io rest] eqn:Hitems.
  - rewrite (run_button_task_body_empty env n g q Hq Hitems).
    do 2 eexists. split; [reflexivity|]. cbn.
    repeat split; auto.
  - destruct (turn_facts env n g q io rest Hq Hitems)
      as [o [tr [Hrun [Hsam [Htrig [Ho _]]]]]].
    destruct (turn_tears_down env n g q io rest o tr Hq Hitems Hrun)
      as [Htorn [Hstarts Hstarted]].
    rewrite Hrun. destruct Ho as [Ho | Ho]; subst o.
    + do 2 eexists. split; [reflexivity|].
      cbn [List.length]. repeat split; auto; try apply Htorn; try lia;
        try discriminate.
    + destruct (IH (n + List.length tr)%nat (taken g q rest)
                  {| q_length := q_length q; q_items := rest |} eq_refl)
        as [o' [tr' [Hrun' [Ho' [Hle [Hblocked [Htrig'
             [Htorn' [Hstarts' Hstarted']]]]]]]]];
        [cbn [q_items List.length] in *; lia|].
      rewrite Hrun'. do 2 eexists. split; [reflexivity|].
      cbn [q_items List.length] in *.
      rewrite samples_app, triggers_app, pressed_samples_app,
        start_calls_app, Hsam.
      assert (Hdone : start_calls tr = pressed_samples tr)
        by (apply Hstarted; discriminate).
      split; [exact Ho'|]. split; [lia|].
      split; [intros Hb; rewrite (Hblocked Hb); lia|].
      split; [lia|].
      split; [apply torn_down_app; assumption|].
      split; [lia|].
      intros Hb. rewrite (Hstarted' Hb). lia.
Qed.

Lemma button_task_waits_on_empty_queue_witness :
  exists o tr,
    run env_fresh 21 (button_task 3 globals_pending) = (o, tr)
    /\ (o = Blocked \/ o = Aborted)
    /\ (samples tr <= 1)%nat
    /\ (o = Blocked -> samples tr = 1%nat)
    /\ triggers tr = pressed_samples tr
    /\ torn_down (pressed_samples tr) tr
    /\ (start_calls tr <= pressed_samples tr)%nat
    /\ (o = Blocked -> start_calls tr = pressed_samples tr).
Proof.
  apply (button_task_waits_on_empty_queue env_fresh 3 21 globals_pending
           {| q_length := BUTTON_QUEUE_LENGTH; q_items := [BUTTON_GPIO] |});
    [reflexivity | cbn; lia].
Defined.

(** X12.  Only a turn of the button task calls the provisioning manager or
    the radio's disconnect, samples the pin or forwards a trigger after the
    boot: an edge on the button adds nothing to the trace, and an event or
    an idle turn adds at most one call, none of those, and leaves the
    static variables and the run of the firmware as they are. *)
Theorem other_inputs_leave_provisioning_alone (env : Env) (d : Device)
    (i : Input) :
  i <> ButtonTaskTurn ->
  sequence_calls (trace (step env d i)) = sequence_calls (trace d)
  /\ samples (trace (step env d i)) = samples (trace d)
  /\ triggers (trace (step env d i)) = triggers (trace d)
  /\ (i = ButtonEdge -> trace (step env d i) = trace d)
  /\ (i <> ButtonEdge ->
      globals (step env d i) = globals d
      /\ halted (step env d i) = halted d
      /\ (List.length (trace (step env d i))
          <= List.length (trace d) + 1)%nat).
Proof.
  intros Hi. destruct (halted d) eqn:Hh.
  { unfold step. rewrite exec_halted by exact Hh.
    repeat split; auto. lia. }
  assert (Hseq : forall a b, sequence_calls (a ++ b)
                             = (sequence_calls a ++ sequence_calls b)%list).
  { intros a b. unfold sequence_calls. rewrite calls_app. apply filter_app. }
  step_cases d i Hh; try congruence;
    rewrite ?app_nil_r, ?Hseq, ?samples_app, ?triggers_app, ?length_app;
    cbn; rewrite ?app_nil_r, ?Nat.add_0_r;
    repeat split; auto; try congruence; try lia.
Qed.

Lemma other_inputs_leave_provisioning_alone_witness :
  sequence_calls
    (trace (step env_fresh (boot env_fresh)
              (Dispatch WIFI_PROV_EVENT WIFI_PROV_CRED_RECV
                 (StaConfig "home" "secret"))))
  = sequence_calls (trace (boot env_fresh)).
Proof.
  apply (other_inputs_leave_provisioning_alone env_fresh (boot env_fresh)
           (Dispatch WIFI_PROV_EVENT WIFI_PROV_CRED_RECV
              (StaConfig "home" "secret"))).
  discriminate.
Defined.

(** X13.  A turn of the button task ends in [abort()] exactly when it got
    as far as the manager's init or start and that call, the last one of
    the turn, returned an error.  What the delay, the sample, the
    disconnect, stop, reset and deinit return never ends the firmware. *)
Theorem turn_aborts_on_init_or_start (env : Env) (n : nat) (g : Globals)
    (q : Queue) (io : Z) (rest : list Z) (o : Outcome (unit * Globals))
    (tr : list Event) :
  button_queue g = Some q -> q_items q = io :: rest ->
  run env n (button_task_body g) = (o, tr) ->
  (o = Aborted
   <-> exists before c r,
         tr = (before ++ [(c, r)])%list
         /\ (c = wifi_prov_mgr_init \/ c = start_call g)
         /\ ret r <> ESP_OK)
  /\ (o <> Aborted -> o = Done (tt, taken g q rest)).
Proof.
  intros Hq Hitems Hrun.
  rewrite (run_button_task_body env n g q io rest Hq Hitems),
    run_start_provisioning in Hrun.
  cbv zeta in Hrun. unfold press_prefix in Hrun. cbn [Nat.add app] in Hrun.
  change (start_call (taken g q rest)) with (start_call g) in Hrun.
  assert (Hlast : forall (before : list Event) (e e' : Event) l,
             (l ++ [e])%list = (before ++ [e'])%list -> e = e').
  { intros before e e' l H. apply app_inj_tail in H. apply H. }
  destruct (ret (env (S n) (gpio_get_level io)) =? 0)%Z;
    [|destruct (Z.eqb_spec
                  (ret (env (S (S (S (S (S (S (S n))))))) wifi_prov_mgr_init))
                  ESP_OK) as [Hi | Hi];
      [destruct (Z.eqb_spec
                   (ret (env (S (S (S (S (S (S (S (S n))))))))
                           (start_call g))) ESP_OK) as [Hs | Hs]|]];
    inversion Hrun; subst o tr; clear Hrun;
    (split; [split; [intros Ho; try discriminate Ho
                    | intros [before [c [r [Htr [Hc Hr]]]]]]
            | intros Ho; try reflexivity; try congruence]).
  - exfalso.
    apply (Hlast before _ (c, r) [_]) in Htr. injection Htr as <- <-.
    destruct Hc as [Hc | Hc]; discriminate Hc.
  - exfalso.
    apply (Hlast before _ (c, r) [_; _; _; _; _; _; _; _; _; _]) in Htr.
    injection Htr as <- <-. destruct Hc as [Hc | Hc]; discriminate Hc.
  - eexists [_; _; _; _; _; _; _; _], _, _.
    split; [reflexivity|]. split; [right; reflexivity | exact Hs].
  - reflexivity.
  - eexists [_; _; _; _; _; _; _], _, _.
    split; [reflexivity|]. split; [left; reflexivity | exact Hi].
  - reflexivity.
Qed.

Lemma turn_aborts_on_init_or_start_witness :
  fst (run env_init_fails 21 (button_task_body globals_pending)) = Aborted
  <-> exists before c r,
        snd (run env_init_fails 21 (button_task_body globals_pending))
        = (before ++ [(c, r)])%list
        /\ (c = wifi_prov_mgr_init \/ c = start_call globals_pending)
        /\ ret r <> ESP_OK.
Proof.
  apply (turn_aborts_on_init_or_start env_init_fails 21 globals_pending
           {| q_length := BUTTON_QUEUE_LENGTH; q_items := [BUTTON_GPIO] |}
           BUTTON_GPIO []); reflexivity.
Defined.

Lemma run_app_main_loop (env : Env) (turns : nat) :
  forall (n : nat) (g : Globals),
    run env n (app_main_loop turns g)
    = (Done (tt, g),
       map (fun k => (vTaskDelay (pdMS_TO_TICKS 1000),
                      env k (vTaskDelay (pdMS_TO_TICKS 1000))))
           (seq n turns)).
Proof.
  induction turns as [|turns IH]; intros n g; [reflexivity|].
  cbn [app_main_loop seq map]. unfold mbind at 1. rewrite run_pbind.
  cbn. rewrite Nat.add_1_r, IH. reflexivity.
Qed.

(** X14.  [app_main] taken through its setup and any number of turns of
    its idle loop: when the setup completes, the loop adds one delay of one
    second per turn and nothing else, and never ends the firmware; when the
    setup aborts, no turn of the loop is reached. *)
Theorem idle_loop_only_delays (env : Env) (turns : nat) :
  exists tr_setup tr_loop,
    snd (run env 0 (app_main_setup globals_init)) = tr_setup
    /\ snd (run env 0 (app_main turns globals_init))
       = (tr_setup ++ tr_loop)%list
    /\ Forall (fun e => fst e = vTaskDelay (pdMS_TO_TICKS 1000)) tr_loop
    /\ (fst (run env 0 (app_main_setup globals_init)) = Aborted ->
        tr_loop = []
        /\ fst (run env 0 (app_main turns globals_init)) = Aborted)
    /\ (fst (run env 0 (app_main_setup globals_init)) <> Aborted ->
        List.length tr_loop = turns
        /\ fst (run env 0 (app_main turns globals_init))
           = fst (run env 0 (app_main_setup globals_init))).
Proof.
  assert (Hrun : run env 0 (app_main turns globals_init)
                 = match run env 0 (app_main_setup globals_init) with
                   | (Done a, tr) =>
                       let '(o, tr') :=
                         run env (0 + List.length tr)
                           ((fun '(_, g') => app_main_loop turns g') a) in
                       (o, (tr ++ tr')%list)
                   | (Aborted, tr) => (Aborted, tr)
                   | (Blocked, tr) => (Blocked, tr)
                   end).
  { unfold app_main, mbind. apply run_pbind. }
  rewrite Hrun. clear Hrun.
  pose proof (never_blocks_seq _ _ never_blocks_nvs
                (never_blocks_seq _ _ never_blocks_init never_blocks_check)
                env 0%nat globals_init) as Hnb.
  fold app_main_setup in Hnb.
  destruct (run env 0 (app_main_setup globals_init)) as [[[u g]| |] tr];
    cbn [fst snd] in *.
  - rewrite run_app_main_loop. do 2 eexists.
    split; [reflexivity|]. split; [reflexivity|].
    split; [|split; [discriminate|]].
    + apply Forall_forall. intros e He. apply in_map_iff in He.
      destruct He as [k [<- _]]. reflexivity.
    + intros _. rewrite length_map, length_seq. destruct u.
      split; reflexivity.
  - exists tr, []. rewrite app_nil_r. repeat split; auto. congruence.
  - congruence.
Qed.

(** X15.  The boot does not look at what [xQueueCreate] returns: a boot
    that completes has made that call, and leaves the queue handle NULL
    exactly when the call returned NULL; otherwise the handle is an empty
    queue of length 5.  Neither that result nor those of the task creation
    and of the interrupt registration stop the boot. *)
Theorem queue_handle_not_checked (env : Env) :
  halted (boot env) = false ->
  exists r,
    In (xQueueCreate BUTTON_QUEUE_LENGTH, r) (trace (boot env))
    /\ count_call (xQueueCreate BUTTON_QUEUE_LENGTH) (trace (boot env))
       = 1%nat
    /\ (button_queue (globals (boot env)) = None <-> ret r = 0%Z)
    /\ (ret r <> 0%Z ->
        button_queue (globals (boot env))
        = Some {| q_length := BUTTON_QUEUE_LENGTH; q_items := [] |}).
Proof.
  boot_cases; intros Hh; try discriminate Hh;
    match goal with
    | |- context [(xQueueCreate BUTTON_QUEUE_LENGTH, ?r)] => exists r
    end;
    (split; [cbn; repeat (first [left; reflexivity | right])|]);
    (split; [reflexivity|]);
    match goal with
    | E : (ret _ =? 0)%Z = true |- _ => apply Z.eqb_eq in E
    | E : (ret _ =? 0)%Z = false |- _ => apply Z.eqb_neq in E
    end;
    (split; [split; intros H; first [assumption | reflexivity
                                    | discriminate H | contradiction]
            | intros H; first [reflexivity | contradiction]]).
Qed.

Lemma queue_handle_not_checked_witness :
  exists r,
    In (xQueueCreate BUTTON_QUEUE_LENGTH, r)
       (trace (boot (answer_to (xQueueCreate BUTTON_QUEUE_LENGTH)
                       (returns 0) env_fresh)))
    /\ count_call (xQueueCreate BUTTON_QUEUE_LENGTH)
         (trace (boot (answer_to (xQueueCreate BUTTON_QUEUE_LENGTH)
                         (returns 0) env_fresh))) = 1%nat
    /\ (button_queue
          (globals (boot (answer_to (xQueueCreate BUTTON_QUEUE_LENGTH)
                            (returns 0) env_fresh))) = None
        <-> ret r = 0%Z)
    /\ (ret r <> 0%Z ->
        button_queue
          (globals (boot (answer_to (xQueueCreate BUTTON_QUEUE_LENGTH)
                            (returns 0) env_fresh)))
        = Some {| q_length := BUTTON_QUEUE_LENGTH; q_items := [] |}).
Proof.
  apply (queue_handle_not_checked
           (answer_to (xQueueCreate BUTTON_QUEUE_LENGTH) (returns 0)
              env_fresh)).
  reflexivity.
Defined.

(** X16.  On the device, after any inputs, the only pin that waits in the
    queue and the only pin that is ever sampled is the button pin, GPIO 32:
    the interrupt handler queues the pin it was registered with, and it is
    registered at most once, with the button pin. *)
Theorem only_button_pin_sampled (env : Env) (inputs : list Input) :
  Forall (fun pin => pin = BUTTON_GPIO)
    (pending (globals (device env inputs)))
  /\ Forall (fun e => is_sample e = true ->
                      fst e = gpio_get_level BUTTON_GPIO)
       (trace (device env inputs))
  /\ (forall r, In (gpio_isr_handler_add BUTTON_GPIO, r)
                  (trace (device env inputs)) ->
        count_call (gpio_isr_handler_add BUTTON_GPIO)
          (trace (device env inputs)) = 1%nat).
Proof.
  assert (Hinv : (forall q, button_queue (globals (device env inputs)) = Some q
                            -> Forall (fun pin => pin = BUTTON_GPIO)
                                 (q_items q))
                 /\ Forall (fun e => is_sample e = true ->
                                     fst e = gpio_get_level BUTTON_GPIO)
                      (trace (device env inputs))
                 /\ (count_call (gpio_isr_handler_add BUTTON_GPIO)
                       (trace (device env inputs)) <= 1)%nat).
  { apply device_invariant.
    - boot_cases;
        (split; [intros q Hq; try discriminate Hq;
                 injection Hq as <-; constructor|]);
        (split; [repeat (constructor;
                         [cbn; intros Hs; try discriminate Hs|]);
                 constructor
                |cbn; lia]).
    - intros d i [Hq [Hs Hc]].
      destruct (halted d) eqn:Hh.
      { unfold step. rewrite exec_halted by exact Hh. auto. }
      step_cases d i Hh; rewrite ?app_nil_r, ?count_call_app.
      all: try match goal with
               | Hq' : forall q0, Some ?q = Some q0 -> _ |- _ =>
                   pose proof (Hq' q eq_refl) as Hall
               end.
      all: try match goal with
               | Ei : q_items ?q = _ :: _, Hall' : Forall _ (q_items ?q)
                 |- _ =>
                   rewrite Ei in Hall'; inversion Hall'; subst
               end.
      all: try match goal with
               | Eq : button_queue ?g = _ |- context [button_queue ?g] =>
                   rewrite Eq
               end.
      all: split;
        [first [assumption
               | intros q' Hq';
                 first [discriminate Hq'
                       | injection Hq' as <-; cbn [q_items];
                         first [assumption
                               | apply Forall_app; split;
                                 [assumption | repeat constructor]]]]
        |split;
         [first [assumption
                | apply Forall_app; split; [assumption|];
                  repeat (constructor;
                          [cbn; intros Hx;
                           first [discriminate Hx | reflexivity]|]);
                  constructor]
         |first [assumption | cbn; lia]]]. }
  destruct Hinv as [Hq [Hs Hc]]. split; [|split; [exact Hs|]].
  - unfold pending.
    destruct (button_queue (globals (device env inputs))) as [q|] eqn:E;
      [apply (Hq q eq_refl) | constructor].
  - intros r Hin.
    assert (Hpos : (0 < count_call (gpio_isr_handler_add BUTTON_GPIO)
                          (trace (device env inputs)))%nat).
    { unfold count_call. apply count_occ_In. unfold calls.
      apply in_map_iff. exists (gpio_isr_handler_add BUTTON_GPIO, r).
      split; [reflexivity | exact Hin]. }
    lia.
Qed.

Lemma stored_credentials_skip_provisioning_witness :
  halted (boot env_provisioned) = false
  /\ prov_calls (calls (trace (boot env_provisioned)))
     = [wifi_prov_mgr_is_provisioned].
Proof.
  destruct (stored_credentials_skip_provisioning env_provisioned
              {| ret := ESP_OK; out := OutBool true |}) as [Hyes _].
  - cbn. do 15 right. left. reflexivity.
  - destruct Hyes as [Hh [Hp _]]; [split; reflexivity|].
    split; assumption.
Defined.
